(** * googlesearch: the paginated search loop and its date filter

    A shallow embedding of [googlesearch/__init__.py].  Python [str] is
    [string], [int] is [Z], [None]-able arguments are [option], the [set]
    of fetched links is a [gset string].  A raised exception is a value of
    [exn]; a call that may raise returns [res].  The generator [search] is
    modelled by the complete run obtained when the caller consumes it to
    the end: the events it performs in order (requests, yields, sleeps)
    and the way it stops.

    What the module imports from other packages ([dateutil]'s [parse],
    [strftime] of [datetime], [urllib]'s [unquote], [requests.get],
    [BeautifulSoup], [sleep], and the package's own [user_agents]) is the
    interface [External]; every theorem holds for every implementation of
    that interface. *)

From stdpp Require Import base decidable option list gmap sets strings.
From Stdlib Require Import ZArith Lia Ascii.

#[local] Set Warnings "-clear-no-such-hyp".

Open Scope Z_scope.

(** ** Python values *)

(** Exceptions that can leave [search]. *)
Inductive exn : Type :=
| ValueError (msg : string)
| TypeError
| OverflowError
| HTTPError (status_code : Z)
| RequestException (msg : string).

Inductive res (A : Type) : Type :=
| Ok (a : A)
| Raise (e : exn).
Arguments Ok {A} a.
Arguments Raise {A} e.

Definition bind {A B : Type} (m : res A) (k : A -> res B) : res B :=
  match m with
  | Ok a => k a
  | Raise e => Raise e
  end.

Notation "'let!' x ':=' m 'in' k" := (bind m (fun x => k))
  (at level 10, x name, m at level 100, k at level 200).

(** Truth value of an optional string: [None] and [""] are false. *)
Definition truthy (o : option string) : bool :=
  match o with
  | Some s => negb (String.eqb s "")
  | None => false
  end.

(** [s.split(sep)] for a one-character separator. *)
Fixpoint str_split (sep : ascii) (s : string) : list string :=
  match s with
  | EmptyString => [EmptyString]
  | String c s' =>
      if Ascii.eqb c sep then EmptyString :: str_split sep s'
      else match str_split sep s' with
           | p :: ps => String c p :: ps
           | [] => [String c EmptyString]
           end
  end.

Fixpoint str_drop (n : nat) (s : string) : string :=
  match n, s with
  | S k, String _ s' => str_drop k s'
  | _, _ => s
  end.

(** [s.replace(old, new)] for a non-empty [old]: occurrences are found
    from the left and do not overlap.  [skip] counts the characters of a
    match that are still to be passed over. *)
Fixpoint replace_from (old new : string) (skip : nat) (s : string) : string :=
  match s with
  | EmptyString => EmptyString
  | String c s' =>
      match skip with
      | S k => replace_from old new k s'
      | O =>
          if String.prefix old s
          then new +:+ replace_from old new (Nat.pred (String.length old)) s'
          else String c (replace_from old new O s')
      end
  end.

(** With an empty [old], Python puts [new] before every character and at
    the end. *)
Fixpoint intersperse_str (new s : string) : string :=
  match s with
  | EmptyString => new
  | String c s' => new +:+ String c (intersperse_str new s')
  end.

Definition str_replace (old new s : string) : string :=
  if String.eqb old "" then intersperse_str new s
  else replace_from old new O s.

(** The part of [s] before the first [sep] (all of [s] without one). *)
Fixpoint str_before (sep : ascii) (s : string) : string :=
  match s with
  | EmptyString => EmptyString
  | String c s' =>
      if Ascii.eqb c sep then EmptyString else String c (str_before sep s')
  end.

(** [s] without [p] in front, when it starts with [p]. *)
Definition strip_prefix (p s : string) : string :=
  if String.prefix p s then str_drop (String.length p) s else s.

(** Does [p] occur somewhere in [s]? *)
Fixpoint occurs (p s : string) : bool :=
  String.prefix p s ||
  match s with
  | EmptyString => false
  | String _ s' => occurs p s'
  end.

(** ** The parsed page *)

(** The first [<a href=...>] of a result block, with the text of its
    [span.CVA68e] when it has one. *)
Record anchor : Type := Anchor {
  href : string;
  title_tag : option string
}.

(** A [div.ezO2md] block: [link_tag] is [result.find("a", href=True)],
    [description_tag] the text of [result.find("span", class_="FrIlee")]. *)
Record container : Type := Container {
  link_tag : option anchor;
  description_tag : option string
}.

Record SearchResult : Type := mkSearchResult {
  url : string;
  title : string;
  description : string
}.

(** What the generator yields. *)
Inductive item : Type :=
| ItemUrl (link : string)
| ItemResult (r : SearchResult).

Definition item_url (i : item) : string :=
  match i with
  | ItemUrl link => link
  | ItemResult r => url r
  end.

(** ** The HTTP request *)

Record params : Type := Params {
  p_q : string;
  p_num : Z;
  p_hl : string;
  p_start : Z;
  p_safe : string;
  p_gl : option string;
  p_tbs : option string
}.

Record http_request : Type := HttpRequest {
  rq_url : string;
  rq_headers : list (string * string);
  rq_params : params;
  rq_proxies : option (list (string * string));
  rq_timeout : Z;
  rq_verify : option bool;
  rq_cookies : list (string * string)
}.

Record response : Type := Response {
  status_code : Z;
  text : string
}.

(** [resp.raise_for_status()]: client and server error codes raise. *)
Definition raise_for_status (resp : response) : res unit :=
  if (400 <=? status_code resp) && (status_code resp <? 600)
  then Raise (HTTPError (status_code resp))
  else Ok tt.

(** ** Imported functions *)

(** What a call of [dateutil.parser.parse] does: it returns a date, raises
    [ParserError], or raises something else ([OverflowError] for a number
    too large), which [format_date] does not catch. *)
Inductive parsed (A : Type) : Type :=
| Parsed (dt : A)
| ParserError
| ParseRaises (e : exn).
Arguments Parsed {A} dt.
Arguments ParserError {A}.
Arguments ParseRaises {A} e.

Class External : Type := {
  datetime : Type;
  (** [dateutil.parser.parse] *)
  parse : string -> parsed datetime;
  strftime : datetime -> string -> string;
  unquote : string -> string;
  (** The state of everything outside the process. *)
  World : Type;
  (** [get_useragent] of the package's [user_agents] module. *)
  get_useragent : World -> string * World;
  get : http_request -> World -> res response * World;
  (** [time.sleep], which raises for a negative or a huge interval. *)
  sleep : Z -> World -> res unit * World;
  (** [BeautifulSoup(text, "html.parser").find_all("div", class_="ezO2md")] *)
  result_blocks : string -> list container
}.

(** ** Arguments and observable behaviour of [search] *)

Record search_args : Type := SearchArgs {
  term : string;
  num_results : Z;
  lang : string;
  proxy : option string;
  advanced : bool;
  sleep_interval : Z;
  timeout : Z;
  safe : string;
  ssl_verify : option bool;
  region : option string;
  start_num : Z;
  unique : bool;
  start_date : option string;
  end_date : option string
}.

(** The defaults of the signature, for a given term. *)
Definition default_args (term : string) : search_args :=
  {| term := term; num_results := 10; lang := "en"; proxy := None;
     advanced := false; sleep_interval := 0; timeout := 5; safe := "active";
     ssl_verify := None; region := None; start_num := 0; unique := false;
     start_date := None; end_date := None |}.

Inductive event : Type :=
| EvRequest (results start : Z)      (* a call [_req(term, results, lang, start, ...)] *)
| EvYield (i : item)
| EvSleep (interval : Z).

(** How the body of the generator is left. *)
Inductive outcome : Type :=
| WhileDone          (* the test [fetched_results < num_results] failed *)
| BreakNoNew         (* [break] after a page with [new_results == 0] *)
| Raised (e : exn)
| OutOfFuel.         (* the bound on the iterations of the model was hit *)

(** The variables of the loop over one page. *)
Record loop_state : Type := LoopState {
  fetched_results : Z;
  new_results : Z;
  fetched_links : gset string
}.

Definition yields (evs : list event) : list item :=
  omap (fun e => match e with EvYield i => Some i | _ => None end) evs.

Definition requests (evs : list event) : list (Z * Z) :=
  omap (fun e => match e with EvRequest r s => Some (r, s) | _ => None end) evs.

Section Search.
Context `{E : External}.

Record run : Type := Run {
  events : list event;
  stopped : outcome;
  final_results : Z;
  final_links : gset string;
  final_world : World
}.

Definition after (evs : list event) (r : run) : run :=
  {| events := evs ++ events r; stopped := stopped r;
     final_results := final_results r; final_links := final_links r;
     final_world := final_world r |}.

(** ** The date filter *)

Definition format_date (date_input : string) : res string :=
  match parse date_input with
  | Parsed dt => Ok (strftime dt "%m/%d/%Y")
  | ParserError =>
      Raise (ValueError ("Could not parse date input: " +:+ date_input))
  | ParseRaises e => Raise e
  end.

(** [format_date] of an argument that is [None] is a [TypeError] of the
    parser; [get_date_range_tbs] never gets there. *)
Definition format_date_opt (date_input : option string) : res string :=
  match date_input with
  | Some s => format_date s
  | None => Raise TypeError
  end.

Definition get_date_range_tbs (start_date end_date : option string)
  : res (option string) :=
  if truthy start_date || truthy end_date then
    let start_date := if negb (truthy start_date) then end_date else start_date in
    let end_date := if negb (truthy end_date) then start_date else end_date in
    let! start_date_formatted := format_date_opt start_date in
    let! end_date_formatted := format_date_opt end_date in
    Ok (Some ("cdr:1,cd_min:" +:+ start_date_formatted +:+
              ",cd_max:" +:+ end_date_formatted))
  else Ok None.

(** ** One request *)

Definition _req (term : string) (results : Z) (lang : string) (start : Z)
    (proxies : option (list (string * string))) (timeout : Z) (safe : string)
    (ssl_verify : option bool) (region : option string) (tbs : option string)
    (w : World) : res response * World :=
  let params :=
    {| p_q := term; p_num := results + 2; p_hl := lang; p_start := start;
       p_safe := safe; p_gl := region;
       p_tbs := if truthy tbs then tbs else None |} in
  let '(ua, w) := get_useragent w in
  let '(r, w) :=
    get {| rq_url := "https://www.google.com/search";
           rq_headers := [("User-Agent", ua); ("Accept", "*/*")];
           rq_params := params;
           rq_proxies := proxies;
           rq_timeout := timeout;
           rq_verify := ssl_verify;
           rq_cookies := [("CONSENT", "PENDING+987"); ("SOCS", "CAESHAgBEhIaAB")] |} w in
  (let! resp := r in let! _ := raise_for_status resp in Ok resp, w).

(** ** One result block *)

Definition result_link (result : container) : string :=
  match link_tag result with
  | Some a => unquote (str_replace "/url?q=" "" (hd "" (str_split "&" (href a))))
  | None => ""
  end.

(** The URL as the specification words it: the part of the link before
    the first [&], without the prefix [/url?q=], percent-decoded. *)
Definition claimed_link (result : container) : string :=
  match link_tag result with
  | Some a => unquote (strip_prefix "/url?q=" (str_before "&" (href a)))
  | None => ""
  end.

Definition result_title (result : container) : string :=
  match link_tag result with
  | Some a => default "" (title_tag a)
  | None => ""
  end.

Definition result_description (result : container) : string :=
  default "" (description_tag result).

Definition result_item (advanced : bool) (result : container) : item :=
  if advanced
  then ItemResult (mkSearchResult (result_link result) (result_title result)
                                  (result_description result))
  else ItemUrl (result_link result).

(** ** The loop over the blocks of one page *)

Fixpoint for_results (num_results : Z) (advanced unique : bool)
    (result_block : list container) (st : loop_state) : list item * loop_state :=
  match result_block with
  | [] => ([], st)
  | result :: rest =>
      let link := result_link result in
      if bool_decide (link ∈ fetched_links st) && unique
      then for_results num_results advanced unique rest st
      else
        let st' := {| fetched_results := fetched_results st + 1;
                      new_results := new_results st + 1;
                      fetched_links := {[link]} ∪ fetched_links st |} in
        let out := result_item advanced result in
        if fetched_results st' >=? num_results then ([out], st')
        else
          let '(outs, st'') := for_results num_results advanced unique rest st' in
          (out :: outs, st'')
  end.

(** The variables after a block that counts. *)
Definition counted (result : container) (st : loop_state) : loop_state :=
  {| fetched_results := fetched_results st + 1;
     new_results := new_results st + 1;
     fetched_links := {[result_link result]} ∪ fetched_links st |}.

(** ** The loop over the pages *)

Definition proxies_of (proxy : option string) : option (list (string * string)) :=
  match proxy with
  | Some p =>
      if truthy proxy && (String.prefix "https" p || String.prefix "http" p)
      then Some [("https", p); ("http", p)]
      else None
  | None => None
  end.

Fixpoint while_loop (a : search_args) (date_range_tbs : option string)
    (fuel : nat) (start fetched : Z) (links : gset string) (w : World) : run :=
  if fetched <? num_results a then
    match fuel with
    | O => Run [] OutOfFuel fetched links w
    | S fuel' =>
        let results := num_results a - start in
        match _req (term a) results (lang a) start (proxies_of (proxy a))
                   (timeout a) (safe a) (ssl_verify a) (region a)
                   date_range_tbs w with
        | (Raise e, w) => Run [EvRequest results start] (Raised e) fetched links w
        | (Ok resp, w) =>
            let result_block := result_blocks (text resp) in
            let '(outs, st) :=
              for_results (num_results a) (advanced a) (unique a) result_block
                          (LoopState fetched 0 links) in
            let evs := EvRequest results start :: map EvYield outs in
            if new_results st =? 0
            then Run evs BreakNoNew (fetched_results st) (fetched_links st) w
            else
              after (evs ++ [EvSleep (sleep_interval a)])
                match sleep (sleep_interval a) w with
                | (Raise e, w) =>
                    Run [] (Raised e) (fetched_results st) (fetched_links st) w
                | (Ok _, w) =>
                    while_loop a date_range_tbs fuel' (start + 10)
                               (fetched_results st) (fetched_links st) w
                end
        end
    end
  else Run [] WhileDone fetched links w.

(** The request of one pass, the page it brings, and the events of the
    pass; [while_loop] is stated with them in [while_loop_step]. *)
Definition page_req (a : search_args) (tbs : option string) (start : Z)
    (w : World) : res response * World :=
  _req (term a) (num_results a - start) (lang a) start (proxies_of (proxy a))
       (timeout a) (safe a) (ssl_verify a) (region a) tbs w.

Definition page_run (a : search_args) (resp : response) (fetched : Z)
    (links : gset string) : list item * loop_state :=
  for_results (num_results a) (advanced a) (unique a)
              (result_blocks (text resp)) (LoopState fetched 0 links).

Definition page_events (a : search_args) (start : Z) (outs : list item)
  : list event :=
  EvRequest (num_results a - start) start :: (EvYield <$> outs).

(** Every pass that goes on has yielded at least once, so [num_results]
    passes are enough (see [while_loop_fuel]). *)
Definition search_fuel (a : search_args) : nat := Z.to_nat (num_results a).

Definition search_with (fuel : nat) (a : search_args) (w : World) : run :=
  match get_date_range_tbs (start_date a) (end_date a) with
  | Raise e => Run [] (Raised e) 0 ∅ w
  | Ok date_range_tbs =>
      while_loop a date_range_tbs fuel (start_num a) 0 ∅ w
  end.

Definition search (a : search_args) (w : World) : run :=
  search_with (search_fuel a) a w.

End Search.

(** ** A mocked environment

    A small implementation of [External] on which runs can be evaluated:
    the remote answers from a script of responses and then repeats a
    fixed one; pages are looked up by the text of the response. *)

Module Mock.

Definition hex_digit (c : ascii) : option N :=
  let n := N_of_ascii c in
  if ((48 <=? n) && (n <=? 57))%N then Some (n - 48)%N
  else if ((65 <=? n) && (n <=? 70))%N then Some (n - 55)%N
  else if ((97 <=? n) && (n <=? 102))%N then Some (n - 87)%N
  else None.

(** Percent-decoding of the escapes that denote one ASCII character. *)
Fixpoint pct_decode (s : string) : string :=
  match s with
  | EmptyString => EmptyString
  | String c s1 =>
      match s1 with
      | String h (String l rest) =>
          match Ascii.eqb c "%", hex_digit h, hex_digit l with
          | true, Some a, Some b =>
              String (ascii_of_N (16 * a + b)) (pct_decode rest)
          | _, _, _ => String c (pct_decode s1)
          end
      | _ => String c (pct_decode s1)
      end
  end.

(** The dates the mocked parser knows, already in the printed form; it
    overflows on one string of digits and rejects every other string. *)
Definition known_dates : list (string * string) :=
  [("10-20-2004", "10/20/2004"); ("2004-10-20", "10/20/2004");
   ("October 20, 2004", "10/20/2004"); ("10/20/2004", "10/20/2004");
   ("2005-01-02", "01/02/2005"); ("01/02/2005", "01/02/2005")].

Fixpoint assoc {A : Type} (k : string) (l : list (string * A)) : option A :=
  match l with
  | [] => None
  | (k', v) :: l' => if String.eqb k k' then Some v else assoc k l'
  end.

Definition block (h t d : string) : container :=
  Container (Some (Anchor h (Some t))) (Some d).

Definition no_anchor (d : string) : container :=
  Container None (Some d).

Definition pages : list (string * list container) :=
  [("abc", [block "/url?q=https://a.example/&sa=U" "A" "first";
            block "/url?q=https://b.example/&sa=U" "B" "second";
            block "/url?q=https://c.example/&sa=U" "C" "third"]);
   ("cde", [block "/url?q=https://c.example/&sa=U" "C" "third";
            block "/url?q=https://d.example/&sa=U" "D" "fourth";
            block "/url?q=https://e.example/&sa=U" "E" "fifth"]);
   ("bare", [no_anchor "one"; no_anchor "two";
             block "/url?q=https://a.example/a%20b&sa=U" "A" "first"]);
   ("nested", [block "/url?q=https://a.example/url?q=x&sa=U" "A" "first"]);
   ("amp", [block "&x" "A" "first"; no_anchor "one"; no_anchor "two"]);
   ("empty", [])].

(** The responses still scripted, and the one given when they are used up. *)
Definition world : Type := list (res response) * res response.

Definition mock_get (_ : http_request) (w : world) : res response * world :=
  match fst w with
  | r :: rs => (r, (rs, snd w))
  | [] => (snd w, w)
  end.

#[export] Instance external : External :=
  {| datetime := string;
     parse := fun s =>
       match assoc s known_dates with
       | Some dt => Parsed dt
       | None =>
           if String.eqb s "99999999999999999999"
           then ParseRaises OverflowError
           else ParserError
       end;
     strftime := fun dt _ => dt;
     unquote := pct_decode;
     World := world;
     get_useragent := fun w => ("Mozilla/5.0", w);
     get := mock_get;
     sleep := fun i w =>
       (if i <? 0 then Raise (ValueError "sleep length must be non-negative")
        else Ok tt, w);
     result_blocks := fun t => default [] (assoc t pages) |}.

Definition page (t : string) : res response := Ok (Response 200 t).

(** A remote that gives the same page to every request. *)
Definition always (t : string) : world := ([], page t).

(** A remote that gives the listed pages and then empty ones. *)
Definition script (ts : list string) : world := (map page ts, page "empty").

(** [search("x", num_results=num, advanced=adv, unique=uniq,
    start_date=sd, end_date=ed)] *)
Definition args (num : Z) (adv uniq : bool) (sd ed : option string)
  : search_args :=
  {| term := "x"; num_results := num; lang := "en"; proxy := None;
     advanced := adv; sleep_interval := 0; timeout := 5; safe := "active";
     ssl_verify := None; region := None; start_num := 0; unique := uniq;
     start_date := sd; end_date := ed |}.

End Mock.

(** ** Further observations of a run *)

Definition sleeps (evs : list event) : list Z :=
  omap (fun e => match e with EvSleep i => Some i | _ => None end) evs.

(** The same call with another value of [advanced]. *)
Definition with_advanced (b : bool) (a : search_args) : search_args :=
  {| term := term a; num_results := num_results a; lang := lang a;
     proxy := proxy a; advanced := b; sleep_interval := sleep_interval a;
     timeout := timeout a; safe := safe a; ssl_verify := ssl_verify a;
     region := region a; start_num := start_num a; unique := unique a;
     start_date := start_date a; end_date := end_date a |}.

(** The filter built from two printed dates. *)
Definition tbs_token (cd_min cd_max : string) : string :=
  "cdr:1,cd_min:" +:+ cd_min +:+ ",cd_max:" +:+ cd_max.

(** * Properties *)

(** ** Strings *)

Lemma str_split_nonempty sep s : str_split sep s <> [].
Proof.
  destruct s as [|c s]; simpl; [discriminate|].
  destruct (Ascii.eqb c sep); [discriminate|].
  destruct (str_split sep s); discriminate.
Qed.

Lemma truthy_Some s : truthy (Some s) = true <-> s <> "".
Proof.
  unfold truthy. destruct (String.eqb_spec s ""); simpl; split; congruence.
Qed.

Lemma hd_str_split sep s : hd "" (str_split sep s) = str_before sep s.
Proof.
  induction s as [|c s IH]; simpl; [done|].
  destruct (Ascii.eqb c sep); [done|].
  destruct (str_split sep s) as [|p ps] eqn:Hs.
  - by destruct (str_split_nonempty sep s).
  - simpl in *. by rewrite IH.
Qed.

(** Passing over [k] characters is starting [k] characters later. *)
Lemma replace_from_skip old new k s :
  replace_from old new k s = replace_from old new 0 (str_drop k s).
Proof.
  revert k. induction s as [|c s IH]; intros [|k]; try done.
  simpl str_drop. cbn [replace_from]. apply IH.
Qed.

Lemma replace_from_absent old new s :
  occurs old s = false -> replace_from old new 0 s = s.
Proof.
  induction s as [|c s IH]; [done|].
  cbn [occurs replace_from]. intros [Hp Ho]%orb_false_iff.
  rewrite Hp. by rewrite IH.
Qed.

Lemma replace_from_prefix old s :
  old <> "" -> String.prefix old s = true ->
  replace_from old "" 0 s = replace_from old "" 0 (str_drop (String.length old) s).
Proof.
  intros Hne Hp. destruct old as [|o old]; [done|].
  destruct s as [|c s]; [done|].
  cbn [replace_from]. rewrite Hp. simpl. apply replace_from_skip.
Qed.

(** Where [old] does not occur again behind a leading [old], removing
    every occurrence is removing the prefix. *)
Lemma str_replace_strip_prefix old s :
  old <> "" ->
  occurs old (strip_prefix old s) = false ->
  str_replace old "" s = strip_prefix old s.
Proof.
  intros Hne. unfold str_replace, strip_prefix.
  destruct (String.eqb_spec old ""); [done|].
  destruct (String.prefix old s) eqn:Hp; intros Ho.
  - rewrite replace_from_prefix by done. by apply replace_from_absent.
  - by apply replace_from_absent.
Qed.

(** ** The loop over one page *)

Section PageLoop.
Context `{E : External}.
Implicit Types (st : loop_state) (blk : list container) (outs : list item).

Lemma item_url_result_item adv result :
  item_url (result_item adv result) = result_link result.
Proof. by destruct adv. Qed.

(** The two branches of the body of the loop. *)
Lemma for_results_skip num adv result rest st :
  result_link result ∈ fetched_links st ->
  for_results num adv true (result :: rest) st = for_results num adv true rest st.
Proof.
  intros Hin. simpl. by rewrite bool_decide_eq_true_2.
Qed.

Lemma for_results_yield num adv uniq result rest st :
  uniq = false \/ result_link result ∉ fetched_links st ->
  for_results num adv uniq (result :: rest) st =
    if fetched_results st + 1 >=? num then ([result_item adv result], counted result st)
    else (result_item adv result :: (for_results num adv uniq rest (counted result st)).1,
          (for_results num adv uniq rest (counted result st)).2).
Proof.
  intros Hc. simpl.
  assert (bool_decide (result_link result ∈ fetched_links st) && uniq = false) as ->.
  { destruct Hc as [->|Hn]; [apply andb_false_r|].
    by rewrite bool_decide_eq_false_2. }
  fold (counted result st).
  destruct (fetched_results st + 1 >=? num); [done|].
  by destruct (for_results num adv uniq rest (counted result st)).
Qed.

(** What one page does to the variables of the loop. *)
Lemma for_results_state num adv uniq blk st :
  let '(outs, st') := for_results num adv uniq blk st in
  fetched_results st' = fetched_results st + Z.of_nat (length outs)
  /\ new_results st' = new_results st + Z.of_nat (length outs)
  /\ fetched_links st' = fetched_links st ∪ list_to_set (item_url <$> outs).
Proof.
  revert st. induction blk as [|result rest IH]; intros st; simpl.
  - split_and!; [lia|lia|set_solver].
  - destruct (bool_decide (result_link result ∈ fetched_links st) && uniq).
    + apply IH.
    + fold (counted result st).
      destruct (fetched_results st + 1 >=? num).
      * simpl. rewrite item_url_result_item. split_and!; [lia|lia|set_solver].
      * specialize (IH (counted result st)).
        destruct (for_results num adv uniq rest (counted result st)) as [outs st'].
        destruct IH as (Hf & Hn & Hl). simpl in *.
        rewrite item_url_result_item.
        split_and!; [lia|lia|]. rewrite Hl. set_solver.
Qed.

(** With [unique], the URLs yielded by a page are new and pairwise
    different. *)
Lemma for_results_fresh num adv blk st :
  let '(outs, _) := for_results num adv true blk st in
  NoDup (item_url <$> outs)
  /\ (forall u, u ∈ item_url <$> outs -> u ∉ fetched_links st).
Proof.
  revert st. induction blk as [|result rest IH]; intros st; simpl.
  - split; [constructor|]. intros u Hu. by apply elem_of_nil in Hu.
  - destruct (bool_decide_reflect (result_link result ∈ fetched_links st)) as [Hin|Hout];
      simpl; [apply IH|].
    fold (counted result st).
    destruct (fetched_results st + 1 >=? num).
    + simpl. rewrite item_url_result_item. split.
      * apply NoDup_singleton.
      * intros u Hu. apply list_elem_of_singleton in Hu. by subst.
    + specialize (IH (counted result st)).
      destruct (for_results num adv true rest (counted result st)) as [outs st'].
      destruct IH as [Hnd Hnew]. simpl. rewrite item_url_result_item. split.
      * constructor; [|done]. intros Hu. apply Hnew in Hu. simpl in Hu. set_solver.
      * intros u [->|Hu]%elem_of_cons; [done|].
        apply Hnew in Hu. simpl in Hu. set_solver.
Qed.

(** A page entered below the requested number never overshoots it. *)
Lemma for_results_bound num adv uniq blk st :
  fetched_results st < num ->
  fetched_results (for_results num adv uniq blk st).2 <= num.
Proof.
  revert st. induction blk as [|result rest IH]; intros st Hlt; simpl; [lia|].
  destruct (bool_decide (result_link result ∈ fetched_links st) && uniq);
    [by apply IH|].
  fold (counted result st).
  destruct (Z.geb_spec (fetched_results st + 1) num) as [Hge|Hlt']; simpl; [lia|].
  specialize (IH (counted result st) Hlt').
  by destruct (for_results num adv uniq rest (counted result st)).
Qed.

(** A block whose URL is in the set is passed over wherever it stands in
    the page: the run of the page is the one without it. *)
Lemma for_results_skip_seen num adv pre result post st :
  result_link result ∈ fetched_links st ->
  for_results num adv true (pre ++ result :: post) st =
  for_results num adv true (pre ++ post) st.
Proof.
  revert st. induction pre as [|r pre IH]; intros st Hin.
  - by apply for_results_skip.
  - simpl.
    destruct (bool_decide (result_link r ∈ fetched_links st) && true);
      [by apply IH|].
    fold (counted r st).
    destruct (fetched_results st + 1 >=? num); [done|].
    rewrite IH; [done|]. simpl. set_solver.
Qed.

(** Without [unique] the set has no effect on what a page yields. *)
Lemma for_results_links_irrelevant num adv blk f n links1 links2 :
  (for_results num adv false blk (LoopState f n links1)).1 =
  (for_results num adv false blk (LoopState f n links2)).1.
Proof.
  revert f n links1 links2.
  induction blk as [|result rest IH]; intros f n links1 links2; simpl; [done|].
  rewrite !andb_false_r. simpl.
  destruct (f + 1 >=? num); [done|].
  specialize (IH (f + 1) (n + 1) ({[result_link result]} ∪ links1)
                 ({[result_link result]} ∪ links2)).
  destruct (for_results num adv false rest _) as [outs1 st1].
  destruct (for_results num adv false rest _) as [outs2 st2].
  simpl in *. by f_equal.
Qed.

(** When nothing is filtered (no [unique], or URLs that are new and
    pairwise different) the page yields its first blocks, in order, up to
    the requested number. *)
Lemma for_results_distinct num adv uniq blk st :
  fetched_results st < num ->
  uniq = false
  \/ (NoDup (result_link <$> blk)
      /\ forall r, r ∈ blk -> result_link r ∉ fetched_links st) ->
  (for_results num adv uniq blk st).1 =
  take (Z.to_nat (num - fetched_results st)) (result_item adv <$> blk).
Proof.
  revert st. induction blk as [|result rest IH]; intros st Hlt Hc.
  - simpl. by rewrite take_nil.
  - rewrite for_results_yield.
    2:{ destruct Hc as [->|[_ Hnew]]; [by left|right]. apply Hnew. by left. }
    destruct (Z.to_nat (num - fetched_results st)) as [|k] eqn:Hk; [lia|].
    destruct (Z.geb_spec (fetched_results st + 1) num) as [Hge|Hlt']; simpl.
    + assert (k = 0%nat) as -> by lia. by rewrite take_0.
    + rewrite IH; [| done |].
      * simpl. do 2 f_equal. lia.
      * destruct Hc as [->|[Hnd Hnew]]; [by left|right].
        rewrite fmap_cons in Hnd. apply NoDup_cons in Hnd as [Hnotin Hnd].
        split; [done|]. intros r Hr. simpl.
        apply not_elem_of_union. split.
        -- apply not_elem_of_singleton. intros Heq. apply Hnotin.
           rewrite <- Heq. by apply list_elem_of_fmap_2.
        -- apply Hnew. by right.
Qed.

(** Without [advanced] a page yields URL strings only. *)
Lemma for_results_plain num uniq blk st :
  (for_results num false uniq blk st).1 =
  ItemUrl <$> (item_url <$> (for_results num false uniq blk st).1).
Proof.
  revert st. induction blk as [|result rest IH]; intros st; simpl; [done|].
  destruct (bool_decide (result_link result ∈ fetched_links st) && uniq);
    [apply IH|].
  fold (counted result st).
  destruct (fetched_results st + 1 >=? num); [done|].
  specialize (IH (counted result st)).
  destruct (for_results num false uniq rest (counted result st)) as [outs st'].
  simpl in *. by f_equal.
Qed.

(** Every URL yielded by a page is the URL of one of its blocks. *)
Lemma for_results_from_blocks num adv uniq blk st u :
  u ∈ item_url <$> (for_results num adv uniq blk st).1 ->
  u ∈ result_link <$> blk.
Proof.
  revert st. induction blk as [|result rest IH]; intros st; simpl; [done|].
  destruct (bool_decide (result_link result ∈ fetched_links st) && uniq).
  { intros Hu. right. by eapply IH. }
  fold (counted result st).
  destruct (fetched_results st + 1 >=? num).
  - simpl. rewrite item_url_result_item.
    intros Hu%list_elem_of_singleton. subst. by left.
  - specialize (IH (counted result st)).
    destruct (for_results num adv uniq rest (counted result st)) as [outs st'].
    simpl in *. rewrite item_url_result_item.
    intros [->|Hu]%elem_of_cons; [by left|right; by apply IH].
Qed.


(** A page that ends below the number has put every URL it holds in the
    set. *)
Lemma for_results_covers num adv uniq blk st :
  fetched_results (for_results num adv uniq blk st).2 < num ->
  forall result, result ∈ blk ->
    result_link result ∈ fetched_links (for_results num adv uniq blk st).2.
Proof.
  revert st. induction blk as [|result rest IH]; intros st Hlt r Hr.
  - by apply elem_of_nil in Hr.
  - pose proof (for_results_state num adv uniq rest st) as Hs1.
    pose proof (for_results_state num adv uniq rest (counted result st)) as Hs2.
    simpl in *.
    destruct (bool_decide_reflect (result_link result ∈ fetched_links st)) as [Hin|Hout];
      simpl in *; [destruct uniq; simpl in *|].
    + destruct (for_results num adv true rest st) as [outs st'] eqn:Heq.
      destruct Hs1 as (_ & _ & Hl). simpl in *.
      apply elem_of_cons in Hr as [->|Hr].
      * rewrite Hl. set_solver.
      * specialize (IH st). rewrite Heq in IH. by apply IH.
    + fold (counted result st) in *.
      destruct (Z.geb_spec (fetched_results st + 1) num) as [Hge|Hlt'];
        simpl in *; [lia|].
      destruct (for_results num adv false rest (counted result st)) as [outs st'] eqn:Heq.
      destruct Hs2 as (_ & _ & Hl). simpl in *.
      apply elem_of_cons in Hr as [->|Hr].
      * rewrite Hl. set_solver.
      * specialize (IH (counted result st)). rewrite Heq in IH. by apply IH.
    + fold (counted result st) in *.
      destruct (Z.geb_spec (fetched_results st + 1) num) as [Hge|Hlt'];
        simpl in *; [lia|].
      destruct (for_results num adv uniq rest (counted result st)) as [outs st'] eqn:Heq.
      destruct Hs2 as (_ & _ & Hl). simpl in *.
      apply elem_of_cons in Hr as [->|Hr].
      * rewrite Hl. set_solver.
      * specialize (IH (counted result st)). rewrite Heq in IH. by apply IH.
Qed.

(** A page that holds enough URLs outside the set brings the count to
    exactly the requested number. *)
Lemma for_results_reaches num adv uniq blk st :
  fetched_results st < num ->
  num - fetched_results st <=
    Z.of_nat (size (list_to_set (result_link <$> blk) ∖ fetched_links st)) ->
  fetched_results (for_results num adv uniq blk st).2 = num.
Proof.
  revert st. induction blk as [|result rest IH]; intros st Hlt Hsz.
  - simpl in Hsz. rewrite difference_disjoint_L in Hsz by set_solver.
    rewrite size_empty in Hsz. lia.
  - assert (forall links : gset string,
      links = {[result_link result]} ∪ fetched_links st ->
      num - (fetched_results st + 1) <=
        Z.of_nat (size (list_to_set (result_link <$> rest) ∖ links))) as Hrest.
    { intros links ->. rewrite fmap_cons, list_to_set_cons in Hsz.
      assert (size (({[result_link result]} ∪ list_to_set (result_link <$> rest))
                      ∖ fetched_links st)
              <= S (size (list_to_set (result_link <$> rest)
                 ∖ ({[result_link result]} ∪ fetched_links st) : gset string)))%nat.
      { etrans.
        - apply (subseteq_size _
            ({[result_link result]} ∪
             list_to_set (result_link <$> rest)
               ∖ ({[result_link result]} ∪ fetched_links st))).
          intros x. rewrite !elem_of_union, !elem_of_difference.
          rewrite !elem_of_union, elem_of_singleton.
          destruct (decide (x = result_link result)); naive_solver.
        - rewrite size_union by set_solver. by rewrite size_singleton. }
      lia. }
    destruct (decide (uniq = false \/ result_link result ∉ fetched_links st))
      as [Hy|Hn].
    + rewrite for_results_yield by done.
      destruct (Z.geb_spec (fetched_results st + 1) num) as [Hge|Hlt'];
        simpl; [lia|].
      apply IH; [done|]. by apply Hrest.
    + assert (uniq = true) as -> by (destruct uniq; naive_solver).
      assert (result_link result ∈ fetched_links st) as Hin.
      { destruct (decide (result_link result ∈ fetched_links st)); naive_solver. }
      rewrite for_results_skip by done.
      apply IH; [done|]. rewrite fmap_cons, list_to_set_cons in Hsz.
      replace (list_to_set (result_link <$> rest) ∖ fetched_links st)
        with (({[result_link result]} ∪ list_to_set (result_link <$> rest))
                ∖ fetched_links st) by set_solver.
      done.
Qed.

(** A block is yielded when the loop reaches it below the requested
    number and its URL is new: not in the set and not the URL of a block
    before it on the page. *)
Lemma for_results_reaches_block num adv uniq pre c post st :
  result_link c ∉ fetched_links st ->
  (forall r, r ∈ pre -> result_link r <> result_link c) ->
  fetched_results st + Z.of_nat (length pre) < num ->
  result_item adv c ∈ (for_results num adv uniq (pre ++ c :: post) st).1.
Proof.
  revert st. induction pre as [|r pre IH]; intros st Hnew Hpre Hlt.
  - simpl app. rewrite for_results_yield by by right.
    destruct (fetched_results st + 1 >=? num); simpl; by left.
  - assert (result_link r <> result_link c) as Hne by (apply Hpre; by left).
    assert (forall r', r' ∈ pre -> result_link r' <> result_link c) as Hpre'
      by (intros r' Hr'; apply Hpre; by right).
    simpl length in Hlt. simpl app.
    destruct (decide (uniq = false \/ result_link r ∉ fetched_links st))
      as [Hy|Hn].
    + rewrite for_results_yield by done.
      destruct (Z.geb_spec (fetched_results st + 1) num) as [Hge|Hlt'];
        [lia|].
      simpl. right. apply IH; [|done|simpl; lia].
      simpl. set_solver.
    + assert (uniq = true) as -> by (destruct uniq; naive_solver).
      rewrite for_results_skip.
      * apply IH; [done..|lia].
      * destruct (decide (result_link r ∈ fetched_links st)); naive_solver.
Qed.

End PageLoop.

(** ** The loop over the pages *)

Lemma filter_url_absent (u : string) (l : list item) :
  u ∉ item_url <$> l -> filter (fun i => item_url i = u) l = [].
Proof.
  induction l as [|i l IH]; [done|].
  rewrite fmap_cons, not_elem_of_cons. intros [Hne Hnotin].
  rewrite filter_cons. destruct (decide (item_url i = u)); [congruence|].
  by apply IH.
Qed.

(** Among items of different URLs, the items with the URL of [x] are [x]
    alone. *)
Lemma filter_url_present (x : item) (l : list item) :
  NoDup (item_url <$> l) -> x ∈ l ->
  filter (fun i => item_url i = item_url x) l = [x].
Proof.
  induction l as [|i l IH]; [by intros _ ?%elem_of_nil|].
  rewrite fmap_cons. intros [Hnotin Hnd]%NoDup_cons Hin.
  rewrite filter_cons. apply elem_of_cons in Hin as [->|Hin].
  - rewrite decide_True by done. by rewrite filter_url_absent.
  - rewrite decide_False; [by apply IH|].
    intros Heq. apply Hnotin. rewrite Heq. by apply list_elem_of_fmap_2.
Qed.

Lemma yields_app evs1 evs2 : yields (evs1 ++ evs2) = yields evs1 ++ yields evs2.
Proof. apply omap_app. Qed.

Lemma yields_EvYield outs : yields (EvYield <$> outs) = outs.
Proof. induction outs as [|o outs IH]; simpl; [done|]. by f_equal. Qed.

Lemma requests_app evs1 evs2 :
  requests (evs1 ++ evs2) = requests evs1 ++ requests evs2.
Proof. apply omap_app. Qed.

(** Projections of a run built by [Run] or [after]. *)
Ltac run_simpl :=
  cbn [events stopped final_results final_links final_world after].

Section PageSequence.
Context `{E : External}.
Implicit Types (a : search_args) (w : World) (links : gset string).

Lemma while_loop_done a tbs fuel start fetched links w :
  num_results a <= fetched ->
  while_loop a tbs fuel start fetched links w = Run [] WhileDone fetched links w.
Proof.
  intros Hle. destruct fuel; simpl;
    by destruct (Z.ltb_spec fetched (num_results a)); [lia|].
Qed.

Lemma while_loop_step a tbs fuel start fetched links w :
  fetched < num_results a ->
  while_loop a tbs (S fuel) start fetched links w =
  match page_req a tbs start w with
  | (Raise e, w1) =>
      Run [EvRequest (num_results a - start) start] (Raised e) fetched links w1
  | (Ok resp, w1) =>
      let p := page_run a resp fetched links in
      if new_results p.2 =? 0
      then Run (page_events a start p.1) BreakNoNew
               (fetched_results p.2) (fetched_links p.2) w1
      else after (page_events a start p.1 ++ [EvSleep (sleep_interval a)])
                 match sleep (sleep_interval a) w1 with
                 | (Raise e, w2) =>
                     Run [] (Raised e) (fetched_results p.2) (fetched_links p.2) w2
                 | (Ok _, w2) =>
                     while_loop a tbs fuel (start + 10) (fetched_results p.2)
                                (fetched_links p.2) w2
                 end
  end.
Proof.
  intros Hlt. cbn [while_loop]. fold (page_req a tbs start w).
  destruct (Z.ltb_spec fetched (num_results a)); [|lia].
  destruct (page_req a tbs start w) as [[resp|e] w1]; [|done].
  unfold page_run, page_events.
  by destruct (for_results _ _ _ _ _) as [outs st].
Qed.

(** The counters of a page, from [for_results_state]. *)
Lemma page_run_state a resp fetched links :
  let p := page_run a resp fetched links in
  fetched_results p.2 = fetched + Z.of_nat (length p.1)
  /\ new_results p.2 = Z.of_nat (length p.1)
  /\ fetched_links p.2 = links ∪ list_to_set (item_url <$> p.1).
Proof.
  unfold page_run.
  pose proof (for_results_state (num_results a) (advanced a) (unique a)
                (result_blocks (text resp)) (LoopState fetched 0 links)) as Hs.
  destruct (for_results _ _ _ _ _) as [outs st]. simpl in *.
  destruct Hs as (? & ? & ?). split_and!; [done|lia|done].
Qed.

Lemma yields_page_events a start outs : yields (page_events a start outs) = outs.
Proof.
  unfold page_events, yields; simpl. fold (yields (EvYield <$> outs)).
  apply yields_EvYield.
Qed.

Lemma yields_after_page a start outs (r : run) :
  yields (events (after (page_events a start outs ++
                           [EvSleep (sleep_interval a)]) r))
  = outs ++ yields (events r).
Proof.
  unfold after; cbn [events]. rewrite !yields_app, yields_page_events.
  by rewrite app_nil_r.
Qed.

Lemma requests_page_events a start outs :
  requests (page_events a start outs) = [(num_results a - start, start)].
Proof.
  unfold page_events, requests. simpl. f_equal.
  induction outs as [|o outs IH]; [done|]. apply IH.
Qed.

(** Induction over the passes of the loop: a property of runs that holds
    for the ways a pass can end without going on (the test of the loop,
    an exception of the request or of the sleep, a page without new
    result), and is carried from the rest of the run to the whole, holds
    of every run. *)
Lemma while_loop_ind a tbs (P : Z -> gset string -> run -> Prop) :
  (forall fetched links w,
     num_results a <= fetched -> P fetched links (Run [] WhileDone fetched links w)) ->
  (forall fetched links w, P fetched links (Run [] OutOfFuel fetched links w)) ->
  (forall start fetched links e w,
     fetched < num_results a ->
     P fetched links
       (Run [EvRequest (num_results a - start) start] (Raised e) fetched links w)) ->
  (forall fetched links e w, P fetched links (Run [] (Raised e) fetched links w)) ->
  (forall start fetched links resp w,
     fetched < num_results a ->
     let p := page_run a resp fetched links in
     new_results p.2 = 0 ->
     P fetched links (Run (page_events a start p.1) BreakNoNew
                          (fetched_results p.2) (fetched_links p.2) w)) ->
  (forall start fetched links resp r,
     fetched < num_results a ->
     let p := page_run a resp fetched links in
     new_results p.2 <> 0 ->
     P (fetched_results p.2) (fetched_links p.2) r ->
     P fetched links
       (after (page_events a start p.1 ++ [EvSleep (sleep_interval a)]) r)) ->
  forall fuel start fetched links w,
    P fetched links (while_loop a tbs fuel start fetched links w).
Proof.
  intros Hdone Hfuel Hraise Hsleep Hbreak Hnext.
  induction fuel as [|fuel IH]; intros start fetched links w.
  - simpl. destruct (Z.ltb_spec fetched (num_results a)); [apply Hfuel|by apply Hdone].
  - destruct (Z.lt_ge_cases fetched (num_results a)) as [Hlt|Hge].
    + rewrite while_loop_step by done.
      destruct (page_req a tbs start w) as [[resp|e] w1]; [|by apply Hraise].
      cbv zeta. destruct (Z.eqb_spec (new_results (page_run a resp fetched links).2) 0).
      * by apply Hbreak.
      * apply Hnext; [done..|].
        destruct (sleep (sleep_interval a) w1) as [[[]|e] w2];
          [apply IH|apply Hsleep].
    + rewrite while_loop_done by done. by apply Hdone.
Qed.

(** The counter and the set at the end of a run. *)
Lemma while_loop_state a tbs fuel start fetched links w :
  let r := while_loop a tbs fuel start fetched links w in
  final_results r = fetched + Z.of_nat (length (yields (events r)))
  /\ final_links r = links ∪ list_to_set (item_url <$> yields (events r)).
Proof.
  apply (while_loop_ind a tbs (fun fetched links r =>
    final_results r = fetched + Z.of_nat (length (yields (events r)))
    /\ final_links r = links ∪ list_to_set (item_url <$> yields (events r)))).
  - intros; simpl. split; [lia|set_solver].
  - intros; simpl. split; [lia|set_solver].
  - intros; simpl. split; [lia|set_solver].
  - intros; simpl. split; [lia|set_solver].
  - intros st f l resp ? _ p _. run_simpl. rewrite yields_page_events.
    by destruct (page_run_state a resp f l) as (Hf & _ & Hl).
  - intros st f l resp r _ p _ [IHf IHl].
    destruct (page_run_state a resp f l) as (Hf & _ & Hl). fold p in Hf, Hl.
    rewrite yields_after_page. run_simpl.
    rewrite IHf, IHl, Hf, Hl, length_app, fmap_app, list_to_set_app_L.
    split; [lia|set_solver].
Qed.

(** With [unique], the URLs yielded by a run are pairwise different and
    none was in the set at the start. *)
Lemma while_loop_unique a tbs fuel start fetched links w :
  unique a = true ->
  let r := while_loop a tbs fuel start fetched links w in
  NoDup (item_url <$> yields (events r))
  /\ (forall u, u ∈ item_url <$> yields (events r) -> u ∉ links).
Proof.
  intros Hu.
  assert (forall resp f l,
    let p := page_run a resp f l in
    NoDup (item_url <$> p.1) /\ (forall u, u ∈ item_url <$> p.1 -> u ∉ l)) as Hpage.
  { intros resp f l. unfold page_run. rewrite Hu.
    pose proof (for_results_fresh (num_results a) (advanced a)
                  (result_blocks (text resp)) (LoopState f 0 l)) as Hf.
    by destruct (for_results _ _ _ _ _). }
  apply (while_loop_ind a tbs (fun fetched links r =>
    NoDup (item_url <$> yields (events r))
    /\ (forall u, u ∈ item_url <$> yields (events r) -> u ∉ links))).
  - intros; simpl. split; [constructor|]. intros u Hin. by apply elem_of_nil in Hin.
  - intros; simpl. split; [constructor|]. intros u Hin. by apply elem_of_nil in Hin.
  - intros; simpl. split; [constructor|]. intros u Hin. by apply elem_of_nil in Hin.
  - intros; simpl. split; [constructor|]. intros u Hin. by apply elem_of_nil in Hin.
  - intros st f l resp ? _ p _. run_simpl. rewrite yields_page_events. apply Hpage.
  - intros st f l resp r _ p _ [IHnd IHnew].
    destruct (page_run_state a resp f l) as (_ & _ & Hl). fold p in Hl.
    destruct (Hpage resp f l) as [Hnd Hnew]. fold p in Hnd, Hnew.
    rewrite yields_after_page, fmap_app. split.
    + apply NoDup_app. split_and!; [done| |done].
      intros u Hu1 Hu2. apply IHnew in Hu2. rewrite Hl in Hu2. set_solver.
    + intros u [Hu1|Hu2]%elem_of_app; [by apply Hnew|].
      apply IHnew in Hu2. rewrite Hl in Hu2. set_solver.
Qed.

(** A run never yields more than what is missing to the requested
    number. *)
Lemma while_loop_bound a tbs fuel start fetched links w :
  let r := while_loop a tbs fuel start fetched links w in
  Z.of_nat (length (yields (events r))) <= Z.max 0 (num_results a - fetched).
Proof.
  apply (while_loop_ind a tbs (fun fetched links r =>
    Z.of_nat (length (yields (events r))) <= Z.max 0 (num_results a - fetched)));
    try (intros; simpl; lia).
  - intros st f l resp ? Hlt p _. run_simpl. rewrite yields_page_events.
    destruct (page_run_state a resp f l) as (Hf & _ & _). fold p in Hf.
    pose proof (for_results_bound (num_results a) (advanced a) (unique a)
                  (result_blocks (text resp)) (LoopState f 0 l) Hlt) as Hb.
    fold (page_run a resp f l) in Hb. fold p in Hb. lia.
  - intros st f l resp r Hlt p _ IH.
    destruct (page_run_state a resp f l) as (Hf & _ & _). fold p in Hf.
    pose proof (for_results_bound (num_results a) (advanced a) (unique a)
                  (result_blocks (text resp)) (LoopState f 0 l) Hlt) as Hb.
    fold (page_run a resp f l) in Hb. fold p in Hb.
    rewrite yields_after_page, length_app. lia.
Qed.




(** Without [advanced] a run yields URL strings only. *)
Lemma while_loop_plain a tbs fuel start fetched links w :
  advanced a = false ->
  let r := while_loop a tbs fuel start fetched links w in
  yields (events r) = ItemUrl <$> (item_url <$> yields (events r)).
Proof.
  intros Hadv.
  assert (forall resp f l,
    (page_run a resp f l).1 = ItemUrl <$> (item_url <$> (page_run a resp f l).1))
    as Hpage.
  { intros. unfold page_run. rewrite Hadv. apply for_results_plain. }
  apply (while_loop_ind a tbs (fun _ _ r =>
    yields (events r) = ItemUrl <$> (item_url <$> yields (events r))));
    try done.
  - intros st f l resp ? _ p _. run_simpl. rewrite yields_page_events. apply Hpage.
  - intros st f l resp r _ p _ IH. rewrite yields_after_page, !fmap_app.
    unfold p. rewrite <- IH. f_equal. apply Hpage.
Qed.


(** What the first page yields opens what the run yields. *)
Lemma while_loop_first_page a tbs fuel start fetched links w resp w1 :
  fetched < num_results a ->
  page_req a tbs start w = (Ok resp, w1) ->
  exists rest,
    yields (events (while_loop a tbs (S fuel) start fetched links w))
    = (page_run a resp fetched links).1 ++ rest.
Proof.
  intros Hlt Hreq. rewrite while_loop_step by done. rewrite Hreq. cbv zeta.
  destruct (new_results _ =? 0).
  - exists []. run_simpl. by rewrite yields_page_events, app_nil_r.
  - eexists. by rewrite yields_after_page.
Qed.


End PageSequence.

(** * The specified properties *)

Section Specified.
Context `{E : External}.
Implicit Types (a : search_args) (w : World).

(** With [unique] the URLs yielded by a run are pairwise different. *)
Lemma search_unique_urls a w :
  unique a = true -> NoDup (item_url <$> yields (events (search a w))).
Proof.
  intros Hu. unfold search, search_with.
  destruct (get_date_range_tbs (start_date a) (end_date a)) as [tbs|e].
  - by apply while_loop_unique.
  - simpl. constructor.
Qed.


(** C2.  A run yields at most [num_results] items.  When the first page
    holds at least [num_results] different URLs, a run without [advanced]
    yields exactly [num_results] URL strings, all from that page, and
    issues no second request; it ends by the test of the loop once the
    sleep that follows the page returns (by its exception, should it
    raise).  The loop over a page is left as soon as the counter reaches
    [num_results]. *)
Theorem search_yields_at_most a w :
  (length (yields (events (search a w))) <= Z.to_nat (num_results a))%nat
  /\ (forall tbs resp w1,
        advanced a = false ->
        0 < num_results a ->
        get_date_range_tbs (start_date a) (end_date a) = Ok tbs ->
        _req (term a) (num_results a - start_num a) (lang a) (start_num a)
             (proxies_of (proxy a)) (timeout a) (safe a) (ssl_verify a)
             (region a) tbs w = (Ok resp, w1) ->
        num_results a <=
          Z.of_nat (size (list_to_set (result_link <$> result_blocks (text resp))
                          : gset string)) ->
        exists links,
          yields (events (search a w)) = ItemUrl <$> links
          /\ Z.of_nat (length links) = num_results a
          /\ (forall u, u ∈ links -> u ∈ result_link <$> result_blocks (text resp))
          /\ requests (events (search a w))
             = [(num_results a - start_num a, start_num a)]
          /\ stopped (search a w)
             = match (sleep (sleep_interval a) w1).1 with
               | Ok _ => WhileDone
               | Raise e => Raised e
               end)
  /\ (forall result rest st,
        unique a = false \/ result_link result ∉ fetched_links st ->
        num_results a <= fetched_results st + 1 ->
        for_results (num_results a) (advanced a) (unique a) (result :: rest) st
        = ([result_item (advanced a) result], counted result st)).
Proof.
  split_and!.
  - unfold search, search_with.
    destruct (get_date_range_tbs (start_date a) (end_date a)) as [tbs|e];
      [|simpl; lia].
    pose proof (while_loop_bound a tbs (search_fuel a) (start_num a) 0 ∅ w).
    simpl in *. lia.
  - intros tbs resp w1 Hadv Hpos Hdate Hreq Hsize.
    fold (page_req a tbs (start_num a) w) in Hreq.
    unfold search, search_with. rewrite Hdate.
    destruct (search_fuel a) as [|fuel] eqn:Hfuel; [unfold search_fuel in Hfuel; lia|].
    rewrite while_loop_step by done. rewrite Hreq. cbv zeta.
    set (p := page_run a resp 0 ∅).
    destruct (page_run_state a resp 0 ∅) as (Hf & Hn & _). fold p in Hf, Hn.
    assert (fetched_results p.2 = num_results a) as Hreach.
    { apply for_results_reaches; simpl; [done|].
      rewrite difference_empty_L. lia. }
    destruct (Z.eqb_spec (new_results p.2) 0) as [Hz|Hnz]; [lia|].
    exists (item_url <$> p.1).
    destruct (sleep (sleep_interval a) w1) as [[[]|e] w2];
      [rewrite while_loop_done by lia|]; split_and!.
    all: try (rewrite yields_after_page; simpl; rewrite app_nil_r;
              unfold p, page_run; rewrite Hadv; apply for_results_plain).
    all: try (rewrite length_fmap; lia).
    all: try (intros u Hu; by eapply for_results_from_blocks).
    all: try (run_simpl; by rewrite app_nil_r, requests_app, requests_page_events).
    all: done.
  - intros result rest st Hc Hge. rewrite for_results_yield by done.
    by destruct (Z.geb_spec (fetched_results st + 1) (num_results a)); [|lia].
Qed.


(** C8 (amended).  A block without anchor, title or description raises
    nothing: the field is the empty string, and the block goes through
    the loop like any other.  It is yielded, first of what is left of its
    page, unless [unique] is set and its URL (the empty string when the
    anchor is missing) is already in the set of fetched links. *)
Theorem missing_parts_give_empty_fields (result : container) :
  (link_tag result = None ->
     result_link result = "" /\ result_title result = "")
  /\ ((forall anc, link_tag result = Some anc -> title_tag anc = None) ->
     result_title result = "")
  /\ (description_tag result = None -> result_description result = "")
  /\ (forall num adv uniq rest st,
        uniq = false \/ result_link result ∉ fetched_links st ->
        exists outs st',
          for_results num adv uniq (result :: rest) st
          = (result_item adv result :: outs, st')).
Proof.
  unfold result_link, result_title, result_description. split_and!.
  - by intros ->.
  - intros Hno. destruct (link_tag result) as [anc|]; [|done].
    by rewrite (Hno anc).
  - by intros ->.
  - intros num adv uniq rest st Hc. rewrite for_results_yield by done.
    destruct (fetched_results st + 1 >=? num); eauto.
Qed.

(** C9 (amended).  Without [unique] the set of fetched links is still
    filled, with every URL that is yielded, but it has no effect: what a
    page yields does not depend on the set, and every block yields, in
    order, until the requested number is reached. *)
Theorem search_without_unique a w :
  unique a = false ->
  final_links (search a w)
    = list_to_set (item_url <$> yields (events (search a w)))
  /\ (forall blk f n links1 links2,
        (for_results (num_results a) (advanced a) (unique a) blk
                     (LoopState f n links1)).1
        = (for_results (num_results a) (advanced a) (unique a) blk
                       (LoopState f n links2)).1)
  /\ (forall blk st,
        fetched_results st < num_results a ->
        (for_results (num_results a) (advanced a) (unique a) blk st).1
        = take (Z.to_nat (num_results a - fetched_results st))
               (result_item (advanced a) <$> blk)).
Proof.
  intros Hu. split_and!.
  - unfold search, search_with.
    destruct (get_date_range_tbs (start_date a) (end_date a)) as [tbs|e].
    + destruct (while_loop_state a tbs (search_fuel a) (start_num a) 0 ∅ w)
        as [_ ->]. set_solver.
    + simpl. set_solver.
  - intros. rewrite Hu. apply for_results_links_irrelevant.
  - intros blk st Hlt. rewrite Hu. apply for_results_distinct; [done|by left].
Qed.

(** C10 (amended).  With [unique], at most one item of a run has the
    empty URL.  Of two blocks without anchor on a page, the second has no
    effect at all; a block without anchor met when the empty string is
    in the set is passed over; one met when it is not is yielded with the
    empty URL, and the empty string is then in the set.  So a block
    without anchor of the first page, with no block of empty URL before
    it and met before [num_results] is reached, gives the one item of
    the run that has the empty URL. *)
Theorem search_unique_one_empty_url a w :
  unique a = true ->
  (length (filter (fun i => item_url i = "") (yields (events (search a w)))) <= 1)%nat
  /\ (forall pre c1 mid c2 post st,
        link_tag c1 = None -> link_tag c2 = None ->
        for_results (num_results a) (advanced a) (unique a)
                    (pre ++ c1 :: mid ++ c2 :: post) st
        = for_results (num_results a) (advanced a) (unique a)
                      (pre ++ c1 :: mid ++ post) st)
  /\ (forall c rest st,
        link_tag c = None -> "" ∈ fetched_links st ->
        for_results (num_results a) (advanced a) (unique a) (c :: rest) st
        = for_results (num_results a) (advanced a) (unique a) rest st)
  /\ (forall c rest st,
        link_tag c = None -> "" ∉ fetched_links st ->
        exists outs st',
          for_results (num_results a) (advanced a) (unique a) (c :: rest) st
          = (result_item (advanced a) c :: outs, st')
          /\ item_url (result_item (advanced a) c) = ""
          /\ "" ∈ fetched_links st')
  /\ (forall tbs resp w1 pre c post,
        get_date_range_tbs (start_date a) (end_date a) = Ok tbs ->
        page_req a tbs (start_num a) w = (Ok resp, w1) ->
        result_blocks (text resp) = pre ++ c :: post ->
        link_tag c = None ->
        (forall r, r ∈ pre -> result_link r <> "") ->
        Z.of_nat (length pre) < num_results a ->
        filter (fun i => item_url i = "") (yields (events (search a w)))
        = [result_item (advanced a) c]).
Proof.
  intros Hu.
  assert (forall c, link_tag c = None -> result_link c = "") as Hempty.
  { intros c Hc. unfold result_link. by rewrite Hc. }
  assert (forall tbs resp w1 pre c post,
        get_date_range_tbs (start_date a) (end_date a) = Ok tbs ->
        page_req a tbs (start_num a) w = (Ok resp, w1) ->
        result_blocks (text resp) = pre ++ c :: post ->
        link_tag c = None ->
        (forall r, r ∈ pre -> result_link r <> "") ->
        Z.of_nat (length pre) < num_results a ->
        filter (fun i => item_url i = "") (yields (events (search a w)))
        = [result_item (advanced a) c]) as Hfirst.
  { intros tbs resp w1 pre c post Hdate Hreq Hblk Hc Hpre Hlen.
    pose proof (search_unique_urls a w Hu) as Hnd.
    assert (result_item (advanced a) c ∈ yields (events (search a w))) as Hin.
    { unfold search, search_with. rewrite Hdate.
      destruct (search_fuel a) as [|fuel] eqn:Hfuel;
        [unfold search_fuel in Hfuel; lia|].
      destruct (while_loop_first_page a tbs fuel (start_num a) 0 ∅ w resp w1)
        as [rest ->]; [lia|done|].
      apply elem_of_app. left. unfold page_run. rewrite Hblk.
      apply for_results_reaches_block; simpl.
      - apply not_elem_of_empty.
      - intros r Hr. rewrite (Hempty c Hc). by apply Hpre.
      - lia. }
    rewrite <- (filter_url_present _ _ Hnd Hin).
    by rewrite item_url_result_item, (Hempty c Hc). }
  rewrite Hu.
  split_and!; [| | | |exact Hfirst].
  - pose proof (search_unique_urls a w Hu) as Hnd.
    revert Hnd. generalize (yields (events (search a w))). clear.
    induction l as [|i l IH]; simpl; [lia|].
    intros [Hnotin Hnd]%NoDup_cons. rewrite filter_cons.
    destruct (decide (item_url i = "")) as [Heq|]; [|by apply IH].
    simpl. rewrite filter_url_absent; [done|]. by rewrite <- Heq.
  - intros pre c1 mid c2 post st Hc1 Hc2. revert st.
    induction pre as [|r pre IH]; intros st.
    + simpl app.
      destruct (decide ("" ∈ fetched_links st)) as [Hin|Hout].
      * rewrite !(for_results_skip _ _ c1) by by rewrite Hempty.
        apply for_results_skip_seen. by rewrite Hempty.
      * rewrite !(for_results_yield _ _ _ c1) by (right; by rewrite Hempty).
        destruct (fetched_results st + 1 >=? num_results a); [done|].
        rewrite for_results_skip_seen; [done|].
        simpl. rewrite (Hempty c1 Hc1), (Hempty c2 Hc2). set_solver.
    + simpl.
      destruct (bool_decide (result_link r ∈ fetched_links st) && true);
        [apply IH|].
      destruct (_ >=? _); [done|]. by rewrite IH.
  - intros c rest st Hc Hin. apply for_results_skip. by rewrite Hempty.
  - intros c rest st Hc Hout.
    rewrite for_results_yield by (right; by rewrite Hempty).
    rewrite item_url_result_item, Hempty by done.
    destruct (fetched_results st + 1 >=? num_results a).
    + eexists _, _. split_and!; [done..|]. simpl. rewrite Hempty by done.
      set_solver.
    + eexists _, _. split_and!; [done..|].
      pose proof (for_results_state (num_results a) (advanced a) true rest
                    (counted c st)) as Hs.
      destruct (for_results _ _ _ rest _) as [outs st']. simpl in *.
      destruct Hs as (_ & _ & ->). rewrite Hempty by done. set_solver.
Qed.

(** C4.  For a date string [d] that the parser reads, with a parser that
    rejects the empty string, giving [d] as start only, as end only or
    as both builds the same filter, [cdr:1,cd_min:f,cd_max:f] with [f]
    the date printed by ["%m/%d/%Y"], which is what [format_date] gives
    for [d]; without any date there is no filter. *)
Theorem get_date_range_tbs_one_date (d : string) (dt : datetime) :
  parse "" = ParserError ->
  parse d = Parsed dt ->
  let f := strftime dt "%m/%d/%Y" in
  let token := Some ("cdr:1,cd_min:" +:+ f +:+ ",cd_max:" +:+ f) in
  format_date d = Ok f
  /\ get_date_range_tbs (Some d) None = Ok token
  /\ get_date_range_tbs (Some d) (Some d) = Ok token
  /\ get_date_range_tbs None (Some d) = Ok token
  /\ get_date_range_tbs None None = Ok None.
Proof.
  intros Hempty Hd f token.
  assert (format_date d = Ok f) as Hf by (unfold format_date; by rewrite Hd).
  assert (truthy (Some d) = true) as Ht.
  { apply truthy_Some. intros ->. congruence. }
  unfold get_date_range_tbs. rewrite Ht. simpl. rewrite Hf. by simpl.
Qed.

(** What the idempotence of [format_date] on a parsed date amounts to: the
    parser must read the printed date back to a date that prints the
    same. *)
Lemma format_date_idempotent_iff (s : string) (dt : datetime) :
  parse s = Parsed dt ->
  (forall f, format_date s = Ok f -> format_date f = Ok f)
  <-> exists dt', parse (strftime dt "%m/%d/%Y") = Parsed dt'
                  /\ strftime dt' "%m/%d/%Y" = strftime dt "%m/%d/%Y".
Proof.
  intros Hs. unfold format_date. rewrite Hs. split.
  - intros Hidem. specialize (Hidem _ eq_refl).
    destruct (parse (strftime dt "%m/%d/%Y")) as [dt'| |e]; [|done..].
    exists dt'. split; [done|]. congruence.
  - intros (dt' & Hp & Heq) f [= <-]. rewrite Hp. by rewrite Heq.
Qed.

(** C6 (amended).  [format_date] of a string on which the parser raises
    [ParserError] raises a [ValueError] whose message ends with that
    string.  When the start or the end date of [search] is such a string
    and is not empty, and the parser raises nothing else on the start
    date, the run raises such an error, for one of the two dates (for
    the start date when that is the bad one), with nothing done before:
    no event, no request, and the world as it was. *)
Theorem unparsable_date_raises_first :
  (forall s, parse s = ParserError ->
     format_date s = Raise (ValueError ("Could not parse date input: " +:+ s)))
  /\ (forall a w s,
        s <> "" -> parse s = ParserError ->
        start_date a = Some s \/ end_date a = Some s ->
        (forall t e, start_date a = Some t -> t <> "" -> parse t <> ParseRaises e) ->
        exists s',
          (start_date a = Some s' \/ end_date a = Some s')
          /\ (start_date a = Some s -> s' = s)
          /\ parse s' = ParserError
          /\ search a w
             = Run [] (Raised (ValueError ("Could not parse date input: " +:+ s')))
                   0 ∅ w
          /\ requests (events (search a w)) = []).
Proof.
  assert (forall s, parse s = ParserError ->
     format_date s = Raise (ValueError ("Could not parse date input: " +:+ s)))
    as Hfmt.
  { intros s Hs. unfold format_date. by rewrite Hs. }
  split; [done|].
  intros a w s Hne Hs Hwhich Hstart.
  assert (truthy (Some s) = true) as Ht by by apply truthy_Some.
  assert (forall s', (start_date a = Some s' \/ end_date a = Some s') ->
            (start_date a = Some s -> s' = s) -> parse s' = ParserError ->
            get_date_range_tbs (start_date a) (end_date a)
              = Raise (ValueError ("Could not parse date input: " +:+ s')) ->
            exists s',
              (start_date a = Some s' \/ end_date a = Some s')
              /\ (start_date a = Some s -> s' = s)
              /\ parse s' = ParserError
              /\ search a w
                 = Run [] (Raised (ValueError ("Could not parse date input: " +:+ s')))
                       0 ∅ w
              /\ requests (events (search a w)) = []) as Hfin.
  { intros s' ? ? ? Hg. exists s'. unfold search, search_with. by rewrite Hg. }
  unfold get_date_range_tbs in Hfin.
  destruct Hwhich as [Hst|Hen].
  - apply (Hfin s); [by left|done|done|].
    rewrite Hst, Ht. simpl. by rewrite Hfmt.
  - destruct (truthy (start_date a)) eqn:Hts.
    + destruct (start_date a) as [t|] eqn:Hst; [|done].
      assert (t <> "") as Htne by by apply truthy_Some.
      destruct (parse t) as [dt| |e] eqn:Hpt.
      * apply (Hfin s); [by right|congruence|done|].
        rewrite Hen, Ht. simpl. unfold format_date at 1. rewrite Hpt. simpl.
        by rewrite Hfmt.
      * apply (Hfin t); [by left|congruence|done|].
        simpl. by rewrite Hfmt.
      * by destruct (Hstart t e eq_refl Htne).
    + apply (Hfin s); [by right| |done|].
      * intros Hst. rewrite Hst, Ht in Hts. done.
      * rewrite Hen, Ht. simpl. by rewrite Hfmt.
Qed.

(** C7 (amended).  The URL of a block without anchor is the empty
    string.  With an anchor it is the link cut at the first [&], with
    every occurrence of [/url?q=] removed, percent-decoded; this is the
    removal of the prefix whenever [/url?q=] does not occur again behind
    it. *)
Theorem result_link_spec (result : container) :
  (link_tag result = None -> result_link result = "")
  /\ (forall anc, link_tag result = Some anc ->
        result_link result
        = unquote (str_replace "/url?q=" "" (str_before "&" (href anc)))
        /\ (occurs "/url?q=" (strip_prefix "/url?q=" (str_before "&" (href anc)))
            = false ->
            result_link result = claimed_link result)).
Proof.
  unfold result_link, claimed_link. split.
  - by intros ->.
  - intros anc ->. rewrite hd_str_split. split; [done|].
    intros Ho. by rewrite str_replace_strip_prefix.
Qed.

End Specified.

(** * Runs against the mocked environment *)

(** Two pages that share one URL, with [unique]: the URL is yielded once. *)
Example overlapping_pages :
  yields (events (search (E:=Mock.external) (Mock.args 10 false true None None)
                         (Mock.script ["abc"; "cde"])))
  = [ItemUrl "https://a.example/"; ItemUrl "https://b.example/";
     ItemUrl "https://c.example/"; ItemUrl "https://d.example/";
     ItemUrl "https://e.example/"].
Proof. vm_compute. reflexivity. Qed.


(** Three results asked from a first page that has three. *)
Lemma search_yields_at_most_witness :
  exists links,
    yields (events (search (E:=Mock.external) (Mock.args 3 false false None None)
                           (Mock.always "abc")))
    = ItemUrl <$> links
    /\ Z.of_nat (length links) = 3.
Proof.
  destruct (proj1 (proj2 (search_yields_at_most (E:=Mock.external)
                     (Mock.args 3 false false None None) (Mock.always "abc")))
              None (Response 200 "abc") (Mock.always "abc"))
    as (links & Hy & Hl & _).
  - reflexivity.
  - reflexivity.
  - reflexivity.
  - reflexivity.
  - vm_compute. discriminate.
  - exists links. split; assumption.
Defined.


(** The same request without [unique], from a remote whose pages after
    the first are empty: three results again. *)
Example five_requested_three_available :
  let r := search (E:=Mock.external) (Mock.args 5 false false None None)
                  (Mock.script ["abc"]) in
  stopped r = BreakNoNew /\ length (yields (events r)) = 3%nat
  /\ requests (events r) = [(5, 0); (-5, 10)].
Proof. vm_compute. split_and!; reflexivity. Qed.


Lemma get_date_range_tbs_one_date_witness :
  get_date_range_tbs (E:=Mock.external) (Some "2004-10-20") None
  = Ok (Some "cdr:1,cd_min:10/20/2004,cd_max:10/20/2004")
  /\ get_date_range_tbs (E:=Mock.external) None (Some "2004-10-20")
     = get_date_range_tbs (E:=Mock.external) (Some "2004-10-20") None.
Proof.
  destruct (get_date_range_tbs_one_date (E:=Mock.external)
              "2004-10-20" "10/20/2004" eq_refl eq_refl)
    as (_ & H1 & _ & H3 & _).
  split; [exact H1|]. rewrite H3. symmetry. exact H1.
Defined.

(** C6, the counterexample: an empty start date is a string the parser
    rejects, yet [search] treats it as no date, raises nothing and sends
    its requests. *)
Lemma empty_start_date_not_an_error :
  let a := Mock.args 10 false false (Some "") None in
  let r := search (E:=Mock.external) a (Mock.script ["abc"]) in
  parse (External:=Mock.external) "" = ParserError
  /\ format_date (E:=Mock.external) ""
     = Raise (ValueError "Could not parse date input: ")
  /\ start_date a = Some ""
  /\ stopped r = BreakNoNew
  /\ requests (events r) = [(10, 0); (0, 10)]
  /\ length (yields (events r)) = 3%nat.
Proof. vm_compute. split_and!; reflexivity. Qed.

Lemma unparsable_date_raises_first_witness :
  exists s',
    search (E:=Mock.external) (Mock.args 10 false false None (Some "someday"))
           (Mock.script ["abc"])
    = Run (E:=Mock.external) []
          (Raised (ValueError ("Could not parse date input: " +:+ s'))) 0 ∅
          (Mock.script ["abc"]).
Proof.
  destruct (proj2 (unparsable_date_raises_first (E:=Mock.external))
              (Mock.args 10 false false None (Some "someday"))
              (Mock.script ["abc"]) "someday")
    as (s' & _ & _ & _ & Hrun & _).
  - discriminate.
  - reflexivity.
  - right. reflexivity.
  - intros t e Ht. discriminate Ht.
  - exists s'. exact Hrun.
Defined.

(** C7, the counterexample: a link that holds [/url?q=] a second time,
    behind the prefix, loses both. *)
Lemma inner_wrapper_removed_too :
  let c := Mock.block "/url?q=https://a.example/url?q=x&sa=U" "A" "first" in
  result_link (E:=Mock.external) c = "https://a.examplex"
  /\ claimed_link (E:=Mock.external) c = "https://a.example/url?q=x"
  /\ result_link (E:=Mock.external) c <> claimed_link (E:=Mock.external) c.
Proof. vm_compute. split_and!; [reflexivity|reflexivity|discriminate]. Qed.

Lemma result_link_spec_witness :
  let c := Mock.block "/url?q=https://a.example/a%20b&sa=U" "A" "first" in
  result_link (E:=Mock.external) c = "https://a.example/a b"
  /\ result_link (E:=Mock.external) c = claimed_link (E:=Mock.external) c.
Proof.
  intros c.
  destruct (proj2 (result_link_spec (E:=Mock.external) c)
              (Anchor "/url?q=https://a.example/a%20b&sa=U" (Some "A")) eq_refl)
    as [Heq Hclaimed].
  split.
  - rewrite Heq. reflexivity.
  - apply Hclaimed. reflexivity.
Defined.

(** C8, the counterexample: with [unique] the second block without anchor
    is on the page and is not yielded, although fewer results than
    requested were found. *)
Lemma second_bare_block_not_yielded :
  let a := Mock.args 5 true true None None in
  let r := search (E:=Mock.external) a (Mock.always "bare") in
  Mock.no_anchor "two" ∈ result_blocks (External:=Mock.external) "bare"
  /\ link_tag (Mock.no_anchor "two") = None
  /\ yields (events r)
     = [ItemResult (mkSearchResult "" "" "one");
        ItemResult (mkSearchResult "https://a.example/a b" "A" "first")]
  /\ (result_item (E:=Mock.external) true (Mock.no_anchor "two")
       ∉ yields (events r))
  /\ stopped r = BreakNoNew.
Proof.
  intros a r.
  assert (yields (events r)
     = [ItemResult (mkSearchResult "" "" "one");
        ItemResult (mkSearchResult "https://a.example/a b" "A" "first")]) as Hy
    by (vm_compute; reflexivity).
  split_and!.
  - right. left.
  - reflexivity.
  - exact Hy.
  - rewrite Hy. intros [H|[H|H]%elem_of_cons]%elem_of_cons.
    + discriminate H.
    + discriminate H.
    + by apply elem_of_nil in H.
  - vm_compute. reflexivity.
Qed.

Lemma missing_parts_give_empty_fields_witness :
  result_link (E:=Mock.external) (Mock.no_anchor "one") = ""
  /\ result_title (Mock.no_anchor "one") = ""
  /\ exists outs st',
       for_results (E:=Mock.external) 5 true true
                   [Mock.no_anchor "one"; Mock.no_anchor "two"]
                   (LoopState 0 0 ∅)
       = (ItemResult (mkSearchResult "" "" "one") :: outs, st').
Proof.
  pose proof (missing_parts_give_empty_fields (E:=Mock.external)
                (Mock.no_anchor "one")) as (Hlink & _ & _ & Hyield).
  destruct (Hlink eq_refl) as [Hl Ht].
  split; [exact Hl|]. split; [exact Ht|].
  apply (Hyield 5 true true [Mock.no_anchor "two"] (LoopState 0 0 ∅)).
  right. rewrite Hl. apply not_elem_of_empty.
Defined.

(** C9, the counterexample: without [unique] the set is filled all the
    same. *)
Lemma fetched_links_filled_without_unique :
  let a := Mock.args 10 false false None None in
  let r := search (E:=Mock.external) a (Mock.script ["abc"]) in
  unique a = false
  /\ size (final_links r) = 3%nat
  /\ "https://a.example/" ∈ final_links r
  /\ final_links r <> ∅.
Proof.
  intros a r.
  assert ("https://a.example/" ∈ final_links r) as Hin.
  { apply (bool_decide_unpack _). vm_compute. exact I. }
  split_and!; [reflexivity|vm_compute; reflexivity|exact Hin|].
  intros Heq. rewrite Heq in Hin. by apply not_elem_of_empty in Hin.
Qed.

Lemma search_without_unique_witness :
  let a := Mock.args 10 false false None None in
  let r := search (E:=Mock.external) a (Mock.script ["abc"; "cde"]) in
  final_links r = list_to_set (item_url <$> yields (events r)).
Proof.
  intros a r.
  apply (search_without_unique (E:=Mock.external) a (Mock.script ["abc"; "cde"])).
  reflexivity.
Defined.

(** C10, the counterexample: an anchor whose link starts with [&] has
    the empty URL; it comes first, and with [unique] neither of the two
    blocks without anchor behind it is yielded. *)
Lemma first_bare_block_not_yielded :
  let a := Mock.args 10 true true None None in
  let r := search (E:=Mock.external) a (Mock.always "amp") in
  result_blocks (External:=Mock.external) "amp"
  = [Mock.block "&x" "A" "first"; Mock.no_anchor "one"; Mock.no_anchor "two"]
  /\ yields (events r) = [ItemResult (mkSearchResult "" "A" "first")]
  /\ (result_item (E:=Mock.external) true (Mock.no_anchor "one")
       ∉ yields (events r))
  /\ stopped r = BreakNoNew.
Proof.
  intros a r.
  assert (yields (events r) = [ItemResult (mkSearchResult "" "A" "first")])
    as Hy by (vm_compute; reflexivity).
  split_and!.
  - reflexivity.
  - exact Hy.
  - rewrite Hy. intros [H|H]%elem_of_cons.
    + discriminate H.
    + by apply elem_of_nil in H.
  - vm_compute. reflexivity.
Qed.

Lemma search_unique_one_empty_url_witness :
  let a := Mock.args 5 true true None None in
  let r := search (E:=Mock.external) a (Mock.always "bare") in
  (length (filter (fun i => item_url i = "") (yields (events r))) <= 1)%nat
  /\ for_results (E:=Mock.external) 5 true true
                 [Mock.no_anchor "one"; Mock.no_anchor "two"] (LoopState 0 0 ∅)
     = for_results (E:=Mock.external) 5 true true
                   [Mock.no_anchor "one"] (LoopState 0 0 ∅)
  /\ filter (fun i => item_url i = "") (yields (events r))
     = [ItemResult (mkSearchResult "" "" "one")].
Proof.
  intros a r.
  pose proof (search_unique_one_empty_url (E:=Mock.external) a
                (Mock.always "bare") eq_refl) as (Hone & Htwo & _ & _ & Hfirst).
  split; [exact Hone|]. split.
  - apply (Htwo [] (Mock.no_anchor "one") [] (Mock.no_anchor "two") []
                (LoopState 0 0 ∅)); reflexivity.
  - apply (Hfirst None (Response 200 "bare") (Mock.always "bare") []
                  (Mock.no_anchor "one")
                  [Mock.no_anchor "two";
                   Mock.block "/url?q=https://a.example/a%20b&sa=U" "A" "first"]).
    + reflexivity.
    + reflexivity.
    + reflexivity.
    + reflexivity.
    + intros r0 Hr0. by apply elem_of_nil in Hr0.
    + simpl. lia.
Defined.

(** * Further properties of the code *)

(** ** The date filter *)

Section DateFilter.
Context `{E : External}.

(** One date, given as start, as end or as both, is the same call: the
    same filter, the same error, or no filter for the empty string. *)
Theorem get_date_range_tbs_single (d : string) :
  get_date_range_tbs (Some d) None = get_date_range_tbs (Some d) (Some d)
  /\ get_date_range_tbs None (Some d) = get_date_range_tbs (Some d) (Some d).
Proof.
  unfold get_date_range_tbs, truthy.
  by destruct (String.eqb d "").
Qed.

(** An empty string stands for a date that is not given, on either side. *)
Theorem get_date_range_tbs_empty (other : option string) :
  get_date_range_tbs (Some "") other = get_date_range_tbs None other
  /\ get_date_range_tbs other (Some "") = get_date_range_tbs other None.
Proof.
  unfold get_date_range_tbs. simpl. split; [done|].
  by destruct (truthy other).
Qed.

(** An exception of [get_date_range_tbs] comes from the parser, on a
    non-empty date that was given: the [ValueError] of [format_date] when
    the parser raised [ParserError], and otherwise what the parser
    raised, unchanged.  [format_date] is never reached with [None]. *)
Theorem get_date_range_tbs_raises (sd ed : option string) (e : exn) :
  get_date_range_tbs sd ed = Raise e ->
  exists s,
    (sd = Some s \/ ed = Some s) /\ s <> ""
    /\ ((parse s = ParserError
         /\ e = ValueError ("Could not parse date input: " +:+ s))
        \/ parse s = ParseRaises e).
Proof.
  assert (forall s e', format_date s = Raise e' ->
            (parse s = ParserError
             /\ e' = ValueError ("Could not parse date input: " +:+ s))
            \/ parse s = ParseRaises e') as Hfmt.
  { intros s e'. unfold format_date. destruct (parse s); [done| |].
    - intros [= <-]. by left.
    - intros [= <-]. by right. }
  unfold get_date_range_tbs.
  destruct sd as [s|], ed as [t|]; simpl;
    repeat match goal with
    | |- context [String.eqb ?x ""] => destruct (String.eqb_spec x "")
    end; simpl; try done; subst;
    repeat match goal with
    | |- context [format_date ?x] =>
        let H := fresh "H" in
        destruct (format_date x) eqn:H; simpl; [|apply Hfmt in H]
    end; try done; intros [= <-]; eauto 10.
Qed.

(** Two dates that parse are printed each on its side, in the order
    given: nothing compares them, a start after the end is accepted. *)
Theorem get_date_range_tbs_two_dates (s t : string) (ds dt : datetime) :
  parse "" = ParserError ->
  parse s = Parsed ds -> parse t = Parsed dt ->
  get_date_range_tbs (Some s) (Some t)
  = Ok (Some (tbs_token (strftime ds "%m/%d/%Y") (strftime dt "%m/%d/%Y"))).
Proof.
  intros Hempty Hs Ht.
  assert (truthy (Some s) = true) as Hts.
  { apply truthy_Some. intros ->. congruence. }
  assert (truthy (Some t) = true) as Htt.
  { apply truthy_Some. intros ->. congruence. }
  unfold get_date_range_tbs, format_date_opt, format_date.
  rewrite Hts, Htt. simpl. by rewrite Hs, Ht.
Qed.

End DateFilter.

(** ** Requests *)

Section Requests.
Context `{E : External}.
Implicit Types (a : search_args) (w : World).

(** [_req] makes one call of [get], asking for two results more than
    [results], with [tbs] among the parameters only when it is a
    non-empty string.  What it returns is decided by the status alone:
    from 400 to 599 it raises [HTTPError], any other response
    (informational and redirection statuses too) is returned; an
    exception of [get] goes through. *)
Theorem _req_status term results lang start proxies timeout safe ssl_verify
    region tbs w :
  exists rq,
    rq_url rq = "https://www.google.com/search"
    /\ p_num (rq_params rq) = results + 2
    /\ p_start (rq_params rq) = start
    /\ p_tbs (rq_params rq) = (if truthy tbs then tbs else None)
    /\ _req term results lang start proxies timeout safe ssl_verify region tbs w
       = (match (get rq (get_useragent w).2).1 with
          | Ok resp =>
              if (400 <=? status_code resp) && (status_code resp <? 600)
              then Raise (HTTPError (status_code resp))
              else Ok resp
          | Raise e => Raise e
          end, (get rq (get_useragent w).2).2)
    /\ (forall resp w',
          _req term results lang start proxies timeout safe ssl_verify region
               tbs w = (Ok resp, w') ->
          status_code resp < 400 \/ 600 <= status_code resp).
Proof.
  unfold _req. destruct (get_useragent w) as [ua w1].
  exists {| rq_url := "https://www.google.com/search";
            rq_headers := [("User-Agent", ua); ("Accept", "*/*")];
            rq_params :=
              {| p_q := term; p_num := results + 2; p_hl := lang;
                 p_start := start; p_safe := safe; p_gl := region;
                 p_tbs := if truthy tbs then tbs else None |};
            rq_proxies := proxies; rq_timeout := timeout;
            rq_verify := ssl_verify;
            rq_cookies := [("CONSENT", "PENDING+987");
                           ("SOCS", "CAESHAgBEhIaAB")] |}.
  split_and!; [reflexivity..| |].
  - cbn [fst snd].
    destruct (get _ w1) as [[r|e] w2]; [|done]. simpl.
    unfold raise_for_status. by destruct (_ && _).
  - intros resp w'. destruct (get _ w1) as [[r|e] w2]; simpl; [|done].
    unfold raise_for_status.
    destruct (Z.leb_spec 400 (status_code r)), (Z.ltb_spec (status_code r) 600);
      simpl; intros [= <- _]; lia.
Qed.

(** A proxy is used exactly when it starts with [http] (which covers
    [https]), and then for both schemes; any other proxy string is
    dropped without notice. *)
Theorem proxies_of_http (p : string) :
  proxies_of (Some p)
  = if String.prefix "http" p then Some [("https", p); ("http", p)] else None.
Proof.
  assert (String.prefix "https" p = true -> String.prefix "http" p = true)
    as Hsub.
  { destruct p as [|c1 [|c2 [|c3 [|c4 p]]]]; cbn [String.prefix];
      repeat destruct (ascii_dec _ _); try done.
    intros _. by destruct p. }
  unfold proxies_of.
  destruct (String.prefix "http" p) eqn:Hp.
  - assert (truthy (Some p) = true) as ->.
    { apply truthy_Some. by intros ->. }
    by rewrite orb_true_r.
  - destruct (String.prefix "https" p); [by discriminate Hsub|].
    by rewrite andb_false_r.
Qed.

End Requests.

(** ** The run of [search] *)

Lemma sleeps_app evs1 evs2 : sleeps (evs1 ++ evs2) = sleeps evs1 ++ sleeps evs2.
Proof. apply omap_app. Qed.

Section Runs.
Context `{E : External}.
Implicit Types (a : search_args) (w : World).

Lemma sleeps_page_events a start outs : sleeps (page_events a start outs) = [].
Proof.
  unfold page_events, sleeps. simpl.
  induction outs as [|o outs IH]; [done|]. apply IH.
Qed.

Lemma requests_after_page a start outs (r : run) :
  requests (events (after (page_events a start outs ++
                             [EvSleep (sleep_interval a)]) r))
  = (num_results a - start, start) :: requests (events r).
Proof.
  unfold after; cbn [events].
  by rewrite !requests_app, requests_page_events.
Qed.

Lemma sleeps_after_page a start outs (r : run) :
  sleeps (events (after (page_events a start outs ++
                           [EvSleep (sleep_interval a)]) r))
  = sleep_interval a :: sleeps (events r).
Proof.
  unfold after; cbn [events].
  by rewrite !sleeps_app, sleeps_page_events.
Qed.

(** Asked for no result (or a negative number), [search] resolves the
    dates and does nothing else: no request, no sleep, nothing yielded. *)
Theorem search_nothing_requested a w tbs :
  num_results a <= 0 ->
  get_date_range_tbs (start_date a) (end_date a) = Ok tbs ->
  search a w = Run [] WhileDone 0 ∅ w.
Proof.
  intros Hle Hdate. unfold search, search_with. rewrite Hdate.
  by apply while_loop_done.
Qed.

Lemma while_loop_offsets a tbs fuel start fetched links w (i : nat) results s :
  requests (events (while_loop a tbs fuel start fetched links w)) !! i
    = Some (results, s) ->
  s = start + 10 * Z.of_nat i /\ results = num_results a - s.
Proof.
  revert start fetched links w i.
  induction fuel as [|fuel IH]; intros start fetched links w i.
  - simpl. by destruct (fetched <? num_results a).
  - destruct (Z.lt_ge_cases fetched (num_results a)) as [Hlt|Hge];
      [|by rewrite while_loop_done].
    rewrite while_loop_step by done.
    destruct (page_req a tbs start w) as [[resp|e] w1].
    + cbv zeta. destruct (new_results _ =? 0).
      * run_simpl. rewrite requests_page_events.
        destruct i as [|i]; [|done]. intros [= <- <-]. lia.
      * rewrite requests_after_page. destruct i as [|i].
        -- intros [= <- <-]. lia.
        -- simpl. destruct (sleep (sleep_interval a) w1) as [[[]|e] w2];
             [|done].
           intros Hi. apply IH in Hi. lia.
    + simpl. destruct i as [|i]; [|done]. intros [= <- <-]. lia.
Qed.

(** Pagination: the request number [i] (from 0) starts at
    [start_num + 10 * i] and asks for [num_results] minus that offset,
    whatever was found so far; the offset advances by ten from page to
    page. *)
Theorem search_request_offsets a w (i : nat) results s :
  requests (events (search a w)) !! i = Some (results, s) ->
  s = start_num a + 10 * Z.of_nat i /\ results = num_results a - s.
Proof.
  unfold search, search_with.
  destruct (get_date_range_tbs (start_date a) (end_date a)) as [tbs|e];
    [|done].
  apply while_loop_offsets.
Qed.

(** The requests of a run are at most one more than the results it
    yields, and never more than [num_results]. *)
Theorem search_request_count a w :
  (length (requests (events (search a w)))
   <= length (yields (events (search a w))) + 1)%nat
  /\ (length (requests (events (search a w))) <= Z.to_nat (num_results a))%nat.
Proof.
  unfold search, search_with.
  destruct (get_date_range_tbs (start_date a) (end_date a)) as [tbs|e];
    [|simpl; lia].
  enough ((length (requests (events
             (while_loop a tbs (search_fuel a) (start_num a) 0 ∅ w)))
           <= length (yields (events
             (while_loop a tbs (search_fuel a) (start_num a) 0 ∅ w))) + 1)%nat
          /\ Z.of_nat (length (requests (events
               (while_loop a tbs (search_fuel a) (start_num a) 0 ∅ w))))
             <= Z.max 0 (num_results a - 0)) as [H1 H2] by (split; lia).
  apply (while_loop_ind a tbs (fun fetched _ r =>
    (length (requests (events r)) <= length (yields (events r)) + 1)%nat
    /\ Z.of_nat (length (requests (events r)))
       <= Z.max 0 (num_results a - fetched))).
  - intros; simpl; lia.
  - intros; simpl; lia.
  - intros; simpl; lia.
  - intros; simpl; lia.
  - intros st f l resp ? Hlt p _. run_simpl.
    rewrite requests_page_events. simpl. lia.
  - intros st f l resp r Hlt p Hnew [IH1 IH2].
    destruct (page_run_state a resp f l) as (Hf & Hn & _). fold p in Hf, Hn.
    rewrite requests_after_page, yields_after_page, length_app. simpl. lia.
Qed.

(** Every pass that yields something ends with one sleep of
    [sleep_interval], the last one too: a run that reaches [num_results]
    sleeps as often as it requests, one that runs dry once less. *)
Theorem search_sleeps a w :
  (stopped (search a w) = WhileDone ->
     length (sleeps (events (search a w)))
     = length (requests (events (search a w))))
  /\ (stopped (search a w) = BreakNoNew ->
     S (length (sleeps (events (search a w))))
     = length (requests (events (search a w))))
  /\ Forall (fun i => i = sleep_interval a) (sleeps (events (search a w))).
Proof.
  unfold search, search_with.
  destruct (get_date_range_tbs (start_date a) (end_date a)) as [tbs|e];
    [|by split_and!].
  apply (while_loop_ind a tbs (fun _ _ r =>
    (stopped r = WhileDone ->
       length (sleeps (events r)) = length (requests (events r)))
    /\ (stopped r = BreakNoNew ->
       S (length (sleeps (events r))) = length (requests (events r)))
    /\ Forall (fun i => i = sleep_interval a) (sleeps (events r)))).
  - by intros.
  - by intros.
  - by intros.
  - by intros.
  - intros st f l resp ? _ p _. run_simpl.
    rewrite requests_page_events, sleeps_page_events. by split_and!.
  - intros st f l resp r _ p _ (IHd & IHb & IHall).
    rewrite requests_after_page, sleeps_after_page. run_simpl. split_and!.
    + intros Hs. simpl. by rewrite IHd.
    + intros Hs. simpl. by rewrite IHb.
    + by constructor.
Qed.

(** At the end of a run the counter is the number of results yielded
    and the set holds their URLs, with or without [unique]. *)
Theorem search_final_state a w :
  final_results (search a w) = Z.of_nat (length (yields (events (search a w))))
  /\ final_links (search a w)
     = list_to_set (item_url <$> yields (events (search a w))).
Proof.
  unfold search, search_with.
  destruct (get_date_range_tbs (start_date a) (end_date a)) as [tbs|e].
  - destruct (while_loop_state a tbs (search_fuel a) (start_num a) 0 ∅ w)
      as [-> ->].
    split; [lia|set_solver].
  - simpl. split; [done|set_solver].
Qed.



End Runs.

(** ** What is yielded *)

Section Yielded.
Context `{E : External}.
Implicit Types (a : search_args) (w : World) (st : loop_state).

Lemma for_results_advanced num adv1 adv2 uniq blk st :
  (for_results num adv1 uniq blk st).2 = (for_results num adv2 uniq blk st).2
  /\ item_url <$> (for_results num adv1 uniq blk st).1
     = item_url <$> (for_results num adv2 uniq blk st).1.
Proof.
  revert st. induction blk as [|result rest IH]; intros st; simpl; [done|].
  destruct (bool_decide (result_link result ∈ fetched_links st) && uniq);
    [apply IH|].
  fold (counted result st).
  destruct (fetched_results st + 1 >=? num).
  - simpl. by rewrite !item_url_result_item.
  - specialize (IH (counted result st)).
    destruct (for_results num adv1 uniq rest _) as [outs1 st1].
    destruct (for_results num adv2 uniq rest _) as [outs2 st2].
    simpl in *. destruct IH as [-> Hurls].
    rewrite !item_url_result_item. split; [done|]. by f_equal.
Qed.

Lemma while_loop_advanced a b tbs fuel start fetched links w :
  let r1 := while_loop a tbs fuel start fetched links w in
  let r2 := while_loop (with_advanced b a) tbs fuel start fetched links w in
  item_url <$> yields (events r1) = item_url <$> yields (events r2)
  /\ requests (events r1) = requests (events r2)
  /\ stopped r1 = stopped r2
  /\ final_world r1 = final_world r2.
Proof.
  revert start fetched links w.
  induction fuel as [|fuel IH]; intros start fetched links w; [done|].
  destruct (Z.lt_ge_cases fetched (num_results a)) as [Hlt|Hge];
    [|by rewrite !while_loop_done].
  cbv zeta. rewrite !while_loop_step by done.
  change (page_req (with_advanced b a) tbs start w) with (page_req a tbs start w).
  destruct (page_req a tbs start w) as [[resp|e] w1]; [|done].
  cbv zeta.
  destruct (for_results_advanced (num_results a) (advanced a) b (unique a)
              (result_blocks (text resp)) (LoopState fetched 0 links))
    as [Hst Hurls].
  fold (page_run a resp fetched links) in Hst, Hurls.
  change (for_results (num_results a) b (unique a) (result_blocks (text resp))
                      (LoopState fetched 0 links))
    with (page_run (with_advanced b a) resp fetched links) in Hst, Hurls.
  set (p1 := page_run a resp fetched links) in *.
  set (p2 := page_run (with_advanced b a) resp fetched links) in *.
  rewrite <- Hst.
  destruct (new_results p1.2 =? 0).
  - run_simpl. by rewrite !yields_page_events, !requests_page_events.
  - rewrite !yields_after_page, !requests_after_page, !fmap_app. run_simpl.
    change (sleep_interval (with_advanced b a)) with (sleep_interval a).
    change (num_results (with_advanced b a)) with (num_results a).
    rewrite Hurls.
    destruct (sleep (sleep_interval a) w1) as [[[]|e] w2]; [|done].
    destruct (IH (start + 10) (fetched_results p1.2) (fetched_links p1.2) w2)
      as (H1 & H2 & H3 & H4).
    by rewrite H1, H2, H3, H4.
Qed.

(** [advanced] changes the form of what is yielded and nothing else: the
    URLs yielded, in order, the requests sent, the way the run ends and
    the state of the world are the same for both values. *)
Theorem search_advanced_irrelevant a b w :
  item_url <$> yields (events (search (with_advanced b a) w))
    = item_url <$> yields (events (search a w))
  /\ requests (events (search (with_advanced b a) w))
     = requests (events (search a w))
  /\ stopped (search (with_advanced b a) w) = stopped (search a w)
  /\ final_world (search (with_advanced b a) w) = final_world (search a w).
Proof.
  unfold search, search_with, search_fuel.
  change (start_date (with_advanced b a)) with (start_date a).
  change (end_date (with_advanced b a)) with (end_date a).
  change (num_results (with_advanced b a)) with (num_results a).
  change (start_num (with_advanced b a)) with (start_num a).
  destruct (get_date_range_tbs (start_date a) (end_date a)) as [tbs|e];
    [|done].
  destruct (while_loop_advanced a b tbs (Z.to_nat (num_results a))
              (start_num a) 0 ∅ w) as (-> & -> & -> & ->).
  done.
Qed.

(** Without [advanced] everything yielded is a URL string; with it,
    everything is a record. *)
Theorem search_item_kind a w (i : item) :
  i ∈ yields (events (search a w)) ->
  if advanced a
  then exists r, i = ItemResult r
  else i = ItemUrl (item_url i).
Proof.
  assert (forall num adv uniq blk st,
    Forall (fun i => exists result, i = result_item adv result)
           (for_results num adv uniq blk st).1) as Hpage.
  { intros num adv uniq blk. induction blk as [|result rest IH]; intros st;
      simpl; [constructor|].
    destruct (bool_decide (result_link result ∈ fetched_links st) && uniq);
      [apply IH|].
    destruct (_ >=? _); [constructor; [eauto|constructor]|].
    specialize (IH {| fetched_results := fetched_results st + 1;
                      new_results := new_results st + 1;
                      fetched_links := {[result_link result]} ∪ fetched_links st |}).
    destruct (for_results num adv uniq rest _) as [outs st'].
    constructor; eauto. }
  assert (forall result, if advanced a
            then exists r, result_item (advanced a) result = ItemResult r
            else result_item (advanced a) result
                 = ItemUrl (item_url (result_item (advanced a) result))) as Hkind.
  { intros result. unfold result_item. destruct (advanced a); eauto. }
  unfold search, search_with.
  destruct (get_date_range_tbs (start_date a) (end_date a)) as [tbs|e];
    [|by intros ?%elem_of_nil].
  revert i. apply Forall_forall.
  apply (while_loop_ind a tbs (fun _ _ r =>
    Forall (fun i => if advanced a then exists r, i = ItemResult r
                     else i = ItemUrl (item_url i)) (yields (events r))));
    try (intros; by constructor).
  - intros st f l resp ? _ p _. run_simpl. rewrite yields_page_events.
    eapply Forall_impl; [apply Hpage|].
    intros i [result ->]; apply Hkind.
  - intros st f l resp r _ p _ IH. rewrite yields_after_page.
    apply Forall_app. split; [|done].
    eapply Forall_impl; [apply Hpage|].
    intros i [result ->]; apply Hkind.
Qed.

(** A page yields items of its own blocks, in the order of the page:
    nothing is invented, repeated or reordered. *)
Theorem for_results_in_order num adv uniq (blk : list container) st :
  sublist (for_results num adv uniq blk st).1 (result_item adv <$> blk).
Proof.
  revert st. induction blk as [|result rest IH]; intros st; simpl; [done|].
  destruct (bool_decide (result_link result ∈ fetched_links st) && uniq).
  { apply sublist_cons. apply IH. }
  fold (counted result st).
  destruct (fetched_results st + 1 >=? num).
  - simpl. apply sublist_skip, sublist_nil_l.
  - specialize (IH (counted result st)).
    destruct (for_results num adv uniq rest (counted result st)) as [outs st'].
    simpl in *. by apply sublist_skip.
Qed.

(** With [unique], a page that ends below the requested number has
    yielded exactly its URLs that were not in the set, each once. *)
Theorem for_results_new_urls num adv (blk : list container) st :
  fetched_results (for_results num adv true blk st).2 < num ->
  NoDup (item_url <$> (for_results num adv true blk st).1)
  /\ list_to_set (item_url <$> (for_results num adv true blk st).1)
     = (list_to_set (result_link <$> blk) : gset string) ∖ fetched_links st.
Proof.
  intros Hlt.
  pose proof (for_results_fresh num adv blk st) as Hfresh.
  pose proof (for_results_state num adv true blk st) as Hstate.
  pose proof (for_results_covers num adv true blk st Hlt) as Hcov.
  pose proof (for_results_from_blocks num adv true blk st) as Hfrom.
  destruct (for_results num adv true blk st) as [outs st']. simpl in *.
  destruct Hfresh as [Hnd Hnew]. destruct Hstate as (_ & _ & Hl).
  split; [done|].
  apply set_eq. intros u.
  rewrite elem_of_difference, !elem_of_list_to_set. split.
  - intros Hu. split; [by apply Hfrom|by apply Hnew].
  - intros [Hu Hout]. apply list_elem_of_fmap in Hu as (r & -> & Hr).
    specialize (Hcov r Hr). rewrite Hl in Hcov. set_solver.
Qed.

Lemma str_before_absent (sep : ascii) (s : string) :
  occurs (String sep "") s = false -> str_before sep s = s.
Proof.
  induction s as [|c s IH]; [done|].
  cbn [occurs String.prefix str_before]. intros [Hp Ho]%orb_false_iff.
  destruct (Ascii.eqb_spec c sep) as [->|Hne].
  - destruct (ascii_dec sep sep); [|done]. by destruct s.
  - by rewrite IH.
Qed.

(** A link without [&] and without [/url?q=] is kept whole: its URL is
    the link, percent-decoded. *)
Theorem result_link_plain (anc : anchor) (descr : option string) :
  occurs "&" (href anc) = false ->
  occurs "/url?q=" (href anc) = false ->
  result_link (Container (Some anc) descr) = unquote (href anc).
Proof.
  intros Hamp Hwrap. unfold result_link. simpl.
  rewrite hd_str_split, str_before_absent by done.
  unfold str_replace. simpl. by rewrite replace_from_absent.
Qed.

End Yielded.

(** ** Instances on the mocked environment *)

(** A number too large for the parser: its [OverflowError] comes out as
    it is, not as a [ValueError]. *)
Lemma get_date_range_tbs_raises_witness :
  exists s,
    s <> ""
    /\ ((parse (External:=Mock.external) s = ParserError
         /\ OverflowError = ValueError ("Could not parse date input: " +:+ s))
        \/ parse (External:=Mock.external) s = ParseRaises OverflowError).
Proof.
  destruct (get_date_range_tbs_raises (E:=Mock.external)
              (Some "99999999999999999999") None OverflowError eq_refl)
    as (s & _ & Hne & Hp).
  exists s. split; [exact Hne|exact Hp].
Defined.

(** A start date after the end date is accepted as it is. *)
Lemma get_date_range_tbs_two_dates_witness :
  get_date_range_tbs (E:=Mock.external) (Some "2005-01-02") (Some "2004-10-20")
  = Ok (Some "cdr:1,cd_min:01/02/2005,cd_max:10/20/2004").
Proof.
  exact (get_date_range_tbs_two_dates (E:=Mock.external)
           "2005-01-02" "2004-10-20" "01/02/2005" "10/20/2004"
           eq_refl eq_refl eq_refl).
Defined.

Lemma _req_status_witness :
  status_code (Response 200 "abc") < 400 \/ 600 <= status_code (Response 200 "abc").
Proof.
  destruct (_req_status (E:=Mock.external) "x" 10 "en" 0 None 5 "active" None
              None None (Mock.always "abc")) as (rq & _ & _ & _ & _ & _ & Hok).
  apply (Hok (Response 200 "abc") (Mock.always "abc")).
  reflexivity.
Defined.

Lemma search_nothing_requested_witness :
  search (E:=Mock.external) (Mock.args 0 false false (Some "2004-10-20") None)
         (Mock.always "abc")
  = Run (E:=Mock.external) [] WhileDone 0 ∅ (Mock.always "abc").
Proof.
  apply (search_nothing_requested (E:=Mock.external)
           (Mock.args 0 false false (Some "2004-10-20") None) (Mock.always "abc")
           (Some "cdr:1,cd_min:10/20/2004,cd_max:10/20/2004")).
  - simpl. lia.
  - reflexivity.
Defined.

Lemma search_request_offsets_witness :
  (10 : Z) = 0 + 10 * Z.of_nat 1 /\ (0 : Z) = 10 - 10.
Proof.
  apply (search_request_offsets (E:=Mock.external)
           (Mock.args 10 false false None None) (Mock.script ["abc"; "cde"])
           1%nat 0 10).
  reflexivity.
Defined.

Lemma search_sleeps_witness :
  let r := search (E:=Mock.external) (Mock.args 3 false false None None)
                  (Mock.always "abc") in
  length (sleeps (events r)) = length (requests (events r)).
Proof.
  intros r.
  apply (proj1 (search_sleeps (E:=Mock.external)
                  (Mock.args 3 false false None None) (Mock.always "abc"))).
  reflexivity.
Defined.


Lemma search_item_kind_witness :
  exists r, ItemResult (mkSearchResult "" "" "one") = ItemResult r.
Proof.
  apply (search_item_kind (E:=Mock.external) (Mock.args 5 true true None None)
           (Mock.always "bare") (ItemResult (mkSearchResult "" "" "one"))).
  apply list_elem_of_lookup. exists 0%nat. reflexivity.
Defined.

Lemma for_results_new_urls_witness :
  let outs := (for_results (E:=Mock.external) 10 false true
                 (result_blocks (External:=Mock.external) "cde")
                 (LoopState 3 3 {["https://c.example/"]})).1 in
  NoDup (item_url <$> outs)
  /\ (list_to_set (item_url <$> outs) : gset string)
     = (list_to_set (result_link (E:=Mock.external) <$>
                     result_blocks (External:=Mock.external) "cde")
        : gset string) ∖ {["https://c.example/"]}.
Proof.
  intros outs.
  assert (fetched_results
            (for_results (E:=Mock.external) 10 false true
               (result_blocks (External:=Mock.external) "cde")
               (LoopState 3 3 {["https://c.example/"]})).2 < 10) as Hlt
    by (vm_compute; reflexivity).
  exact (for_results_new_urls (E:=Mock.external) 10 false
           (result_blocks (External:=Mock.external) "cde")
           (LoopState 3 3 {["https://c.example/"]}) Hlt).
Defined.

Lemma result_link_plain_witness :
  result_link (E:=Mock.external)
    (Container (Some (Anchor "https://a.example/a%20b" None)) None)
  = "https://a.example/a b".
Proof.
  rewrite (result_link_plain (E:=Mock.external)
             (Anchor "https://a.example/a%20b" None) None eq_refl eq_refl).
  reflexivity.
Defined.
